(** * sptest: repeated execution of a console command with timing statistics

    A shallow embedding of [sptest.py].  The script is modelled the way it is
    written: [SPscript.__init__] resolves the configuration from the command
    line or from a JSON file, [SPscript.execute] launches the command and then
    processes the collected timings, and the [__main__] block maps the three
    ways of leaving the program to a process exit status.

    Python exceptions and [sys.exit] are explicit results, [print] appends to
    an output log, and the operating system (files, the clock, the child
    processes) is an oracle record of the model. *)

From Stdlib Require Import Ascii String ZArith Lia List Sorting.Sorted Sorting.Permutation.
From stdpp Require Import base list sorting strings.

Local Open Scope Z_scope.
Set Warnings "-register-all".

(** ** Exceptions, [sys.exit] and Python values *)

Module Py.

(** The exception classes the script can meet.  All of them derive from
    [Exception]; [SystemExit] does not and is a result of its own. *)
Inductive exn : Type :=
| ValueError
| TypeError
| AttributeError
| OverflowError
| IndexError
| ZeroDivisionError
| GetoptError (msg opt : string)
| OSError
| HostError.

Inductive result (A : Type) : Type :=
| Ok (a : A)
| Raise (e : exn)
| Exit (code : Z).
Arguments Ok {A} a.
Arguments Raise {A} e.
Arguments Exit {A} code.

Definition rbind {A B} (r : result A) (k : A -> result B) : result B :=
  match r with
  | Ok a => k a
  | Raise e => Raise e
  | Exit c => Exit c
  end.

(** A [float] is not-a-number, an infinity, or the dyadic number
    [m * 2 ^ e]. *)
Inductive pyfloat : Type :=
| FNan
| FInf (negative : bool)
| FFinite (m e : Z).

(** [float.as_integer_ratio]: the reduced fraction with positive
    denominator. *)
Definition as_integer_ratio (f : pyfloat) : result (Z * Z) :=
  match f with
  | FNan => Raise ValueError
  | FInf _ => Raise OverflowError
  | FFinite m e =>
      if 0 <=? e then Ok (m * 2 ^ e, 1)
      else let d := 2 ^ (- e) in
           let g := Z.gcd m d in
           Ok (m / g, d / g)
  end.

(** [float(n)] for an [int]: the nearest double, ties to the even
    53-bit significand, [OverflowError] beyond the largest double. *)
Definition float_of_int (n : Z) : result pyfloat :=
  let a := Z.abs n in
  if a <? 2 ^ 53 then Ok (FFinite n 0)
  else
    let k := Z.log2 a - 52 in
    let q := a / 2 ^ k in
    let r := a mod 2 ^ k in
    let half := 2 ^ (k - 1) in
    let q' := if (half <? r) || ((r =? half) && Z.odd q) then q + 1 else q in
    if 2 ^ 1024 <=? q' * 2 ^ k then Raise OverflowError
    else Ok (FFinite (Z.sgn n * q') k).

(** [int(x)] for a [float]: truncation toward zero. *)
Definition int_of_float (f : pyfloat) : result Z :=
  match f with
  | FNan => Raise ValueError
  | FInf _ => Raise OverflowError
  | FFinite m e => if 0 <=? e then Ok (m * 2 ^ e) else Ok (Z.quot m (2 ^ (- e)))
  end.

(** The values [json.loads] can return, and the strings of [getopt]. *)
Inductive pyval : Type :=
| PNone
| PBool (b : bool)
| PInt (n : Z)
| PFloat (f : pyfloat)
| PStr (s : string)
| PList (l : list pyval)
| PDict (items : list (string * pyval)).

(** Truth value testing, as used by [not self.command]. *)
Definition truthy (v : pyval) : bool :=
  match v with
  | PNone => false
  | PBool b => b
  | PInt n => negb (n =? 0)
  | PFloat (FFinite m _) => negb (m =? 0)
  | PFloat _ => true
  | PStr s => negb (String.eqb s EmptyString)
  | PList l => match l with [] => false | _ => true end
  | PDict d => match d with [] => false | _ => true end
  end.

(** [seq[i]] with Python's negative indices; [IndexError] out of range. *)
Definition getitem {A} (l : list A) (i : Z) : result A :=
  let len := Z.of_nat (length l) in
  let j := if i <? 0 then i + len else i in
  if (0 <=? j) && (j <? len) then
    match l !! Z.to_nat j with
    | Some x => Ok x
    | None => Raise IndexError
    end
  else Raise IndexError.

(** The integer division of [datetime]'s arithmetic, [divide_nearest]:
    the quotient rounded to the nearest integer, ties to even. *)
Definition divide_nearest (a b : Z) : Z :=
  let q := a / b in
  let r := a mod b in
  if (Z.abs b <? 2 * Z.abs r) || ((2 * Z.abs r =? Z.abs b) && Z.odd q)
  then q + 1 else q.

End Py.
Export Py.

(** ** [datetime] and [timedelta]

    Both are counts of microseconds: a [timedelta] is its total number of
    microseconds, a [datetime] the microseconds since 0001-01-01T00:00. *)

Module Datetime.

Definition MINYEAR : Z := 1.
Definition MAXYEAR : Z := 9999.
Definition us_per_day : Z := 86400 * 1000000.

Definition is_leap (y : Z) : bool :=
  (y mod 4 =? 0) && (negb (y mod 100 =? 0) || (y mod 400 =? 0)).

Definition days_before_year (y : Z) : Z :=
  let p := y - 1 in p * 365 + p / 4 - p / 100 + p / 400.

Definition days_in_month (y m : Z) : Z :=
  if m =? 2 then (if is_leap y then 29 else 28)
  else if (m =? 4) || (m =? 6) || (m =? 9) || (m =? 11) then 30 else 31.

Definition days_before_month (y m : Z) : Z :=
  fold_left (fun acc k => acc + days_in_month y (Z.of_nat k))
            (seq 1 (Z.to_nat (m - 1))) 0.

(** [datetime(year, month, day)], midnight. *)
Definition datetime (year month day : Z) : Z :=
  (days_before_year year + days_before_month year month + day - 1) * us_per_day.

(** The last representable instant, 9999-12-31T23:59:59.999999. *)
Definition datetime_max : Z := datetime MAXYEAR 12 31 + us_per_day - 1.

Definition timedelta_min : Z := - 999999999 * us_per_day.
Definition timedelta_max : Z := 999999999 * us_per_day + us_per_day - 1.

(** Every [timedelta] the library builds is range checked. *)
Definition new_delta (us : Z) : result Z :=
  if (timedelta_min <=? us) && (us <=? timedelta_max) then Ok us
  else Raise OverflowError.

Definition td_add (a b : Z) : result Z := new_delta (a + b).
Definition dt_sub (a b : Z) : result Z := new_delta (a - b).

(** [timedelta * float] *)
Definition td_mul_float (td : Z) (f : pyfloat) : result Z :=
  rbind (as_integer_ratio f) (fun '(num, den) =>
    new_delta (divide_nearest (td * num) den)).

(** [timedelta / float] *)
Definition td_truediv_float (td : Z) (f : pyfloat) : result Z :=
  rbind (as_integer_ratio f) (fun '(num, den) =>
    if num =? 0 then Raise ZeroDivisionError
    else new_delta (divide_nearest (td * den) num)).

End Datetime.
Export Datetime.

(** ** The [getopt] module of the standard library

    [getopt.getopt(args, shortopts, longopts)].  An option list entry is the
    pair of the option's spelling and its argument; scanning stops at the
    first argument that is not an option.  [do_shorts] and [do_longs] see the
    argument that follows the current one and report whether they used it. *)

Module Getopt.

Local Open Scope string_scope.

Definition opt_entry : Type := string * string.

Fixpoint short_has_arg (opt : ascii) (shortopts : string) : result bool :=
  match shortopts with
  | EmptyString =>
      Raise (GetoptError ("option -" ++ String opt " not recognized")
                         (String opt EmptyString))
  | String c rest =>
      if Ascii.eqb opt c && negb (Ascii.eqb c ":") then Ok (String.prefix ":" rest)
      else short_has_arg opt rest
  end.

Fixpoint do_shorts (opts : list opt_entry) (optstring shortopts : string)
         (next : option string) : result (list opt_entry * bool) :=
  match optstring with
  | EmptyString => Ok (opts, false)
  | String opt rest =>
      match short_has_arg opt shortopts with
      | Ok true =>
          let name := String "-" (String opt EmptyString) in
          if String.eqb rest EmptyString then
            match next with
            | None => Raise (GetoptError
                               ("option -" ++ String opt " requires argument")
                               (String opt EmptyString))
            | Some optarg => Ok ((opts ++ [(name, optarg)])%list, true)
            end
          else Ok ((opts ++ [(name, rest)])%list, false)
      | Ok false =>
          let name := String "-" (String opt EmptyString) in
          do_shorts (opts ++ [(name, EmptyString)])%list rest shortopts next
      | Raise e => Raise e
      | Exit c => Exit c
      end
  end.

(** [opt.index('=')] and the two slices around it. *)
Fixpoint split_eq (s : string) : string * option string :=
  match s with
  | EmptyString => (EmptyString, None)
  | String c rest =>
      if Ascii.eqb c "=" then (EmptyString, Some rest)
      else let '(a, b) := split_eq rest in (String c a, b)
  end.

Fixpoint endswith_eq (s : string) : bool :=
  match s with
  | EmptyString => false
  | String c EmptyString => Ascii.eqb c "="
  | String _ rest => endswith_eq rest
  end.

Fixpoint drop_last (s : string) : string :=
  match s with
  | EmptyString => EmptyString
  | String c EmptyString => EmptyString
  | String c rest => String c (drop_last rest)
  end.

Definition mem (s : string) (l : list string) : bool :=
  existsb (String.eqb s) l.

Definition long_has_args (opt : string) (longopts : list string)
  : result (bool * string) :=
  let possibilities := List.filter (String.prefix opt) longopts in
  match possibilities with
  | [] => Raise (GetoptError ("option --" ++ opt ++ " not recognized") opt)
  | unique_match :: others =>
      if mem opt possibilities then Ok (false, opt)
      else if mem (String.append opt "=") possibilities then Ok (true, opt)
      else match others with
           | _ :: _ =>
               Raise (GetoptError ("option --" ++ opt ++ " not a unique prefix") opt)
           | [] =>
               if endswith_eq unique_match then Ok (true, drop_last unique_match)
               else Ok (false, unique_match)
           end
  end.

Definition do_longs (opts : list opt_entry) (opt : string)
           (longopts : list string) (next : option string)
  : result (list opt_entry * bool) :=
  let '(opt, optarg) := split_eq opt in
  match long_has_args opt longopts with
  | Ok (has_arg, opt) =>
      if has_arg then
        match optarg with
        | Some a => Ok ((opts ++ [(String.append "--" opt, a)])%list, false)
        | None =>
            match next with
            | None =>
                Raise (GetoptError ("option --" ++ opt ++ " requires argument") opt)
            | Some a => Ok ((opts ++ [(String.append "--" opt, a)])%list, true)
            end
        end
      else
        match optarg with
        | Some _ =>
            Raise (GetoptError ("option --" ++ opt ++ " must not have an argument")
                               opt)
        | None => Ok ((opts ++ [(String.append "--" opt, EmptyString)])%list, false)
        end
  | Raise e => Raise e
  | Exit c => Exit c
  end.

Definition tail_string (s : string) : string :=
  match s with
  | EmptyString => EmptyString
  | String _ rest => rest
  end.

Fixpoint getopt_loop (opts : list opt_entry) (args : list string)
         (shortopts : string) (longopts : list string)
  : result (list opt_entry * list string) :=
  match args with
  | [] => Ok (opts, [])
  | a :: rest =>
      if String.prefix "-" a && negb (String.eqb a "-") then
        if String.eqb a "--" then Ok (opts, rest)
        else
          let step :=
            if String.prefix "--" a
            then do_longs opts (tail_string (tail_string a)) longopts (head rest)
            else do_shorts opts (tail_string a) shortopts (head rest) in
          match step with
          | Ok (opts', used_next) =>
              if used_next then
                match rest with
                | _ :: rest' => getopt_loop opts' rest' shortopts longopts
                | [] => Ok (opts', [])
                end
              else getopt_loop opts' rest shortopts longopts
          | Raise e => Raise e
          | Exit c => Exit c
          end
      else Ok (opts, args)
  end.

Definition getopt (args : list string) (shortopts : string)
           (longopts : list string) : result (list opt_entry * list string) :=
  getopt_loop [] args shortopts longopts.

End Getopt.
Export Getopt.

(** ** The world of the script: console output and launched commands *)

(** One constructor per [print] call of the script, with the values it
    formats. *)
Inductive line : Type :=
| PrFileNotFound (filename : string)
| PrReadError (filename : string)
| PrJsonError (filename json_text : string)
| PrHelp
| PrValueError
| PrGetoptError (msg : string)
| PrNoCommand
| PrExecuting (cmd : pyval) (n p : Z)
| PrParallelMode
| PrSequentialMode
| PrStarting (iteration : Z)
| PrStarted
| PrDoneIn (td : Z)
| PrWaiting
| PrDone
| PrTotal (td : Z)
| PrFastest (td : Z)
| PrSlowest (td : Z)
| PrAverage (td : Z)
| PrMedian (td : Z)
| PrAttention (error_cnt : Z)
| PrUnhandled (e : exn).

Record timing : Type := Timing {
  e_code : Z;
  start : Z;
  finish : Z;
  time : Z
}.

(** [self.timings] is a list of dictionaries that [run_command] updates in
    place, from the main thread or from worker threads: it lives in the
    world, so that a write is seen by every later reader and survives an
    exception of the writer. *)
Record world : Type := World {
  stdout : list line;        (* what has been printed, oldest first *)
  launched : list nat;       (* the iterations whose command was started *)
  timings : list timing      (* the object behind [self.timings] *)
}.

Definition world0 : world := World [] [] [].

(** Computations of the script: they read and extend the world and end
    normally, by an exception, or by [sys.exit]. *)
Definition M (A : Type) : Type := world -> result A * world.

Definition ret {A} (a : A) : M A := fun w => (Ok a, w).

Definition bind {A B} (m : M A) (k : A -> M B) : M B :=
  fun w =>
    match m w with
    | (Ok a, w') => k a w'
    | (Raise e, w') => (Raise e, w')
    | (Exit c, w') => (Exit c, w')
    end.

Declare Scope script_scope.
Delimit Scope script_scope with script.
Notation "x <- m ;; k" := (bind m (fun x => k))
  (at level 100, m at next level, right associativity) : script_scope.
Notation "m ;; k" := (bind m (fun _ => k))
  (at level 100, right associativity) : script_scope.
Local Open Scope script_scope.

Definition lift {A} (r : result A) : M A := fun w => (r, w).
Definition raise {A} (e : exn) : M A := lift (Raise e).
Definition exit {A} (code : Z) : M A := lift (Exit code).

Definition print (l : line) : M unit :=
  fun w => (Ok tt, World (stdout w ++ [l]) (launched w) (timings w)).

Definition launch (iteration : nat) : M unit :=
  fun w => (Ok tt, World (stdout w) (launched w ++ [iteration]) (timings w)).

Definition get_timings : M (list timing) :=
  fun w => (Ok (timings w), w).

Definition put_timings (ts : list timing) : M unit :=
  fun w => (Ok tt, World (stdout w) (launched w) ts).

Fixpoint for_each {A S} (l : list A) (body : S -> A -> M S) (s : S) : M S :=
  match l with
  | [] => ret s
  | x :: l' => s' <- body s x ;; for_each l' body s'
  end.

(** ** What the script asks of the interpreter and of the operating system *)

Record host : Type := Host {
  (** [str.upper] *)
  str_upper : string -> string;
  (** [int(s)] for a string: [None] is [ValueError] *)
  int_of_str : string -> option Z;
  (** [os.path.isfile] *)
  isfile : string -> bool;
  (** [open(filename, 'r')] and [read]: [None] is any exception *)
  read_file : string -> option string;
  (** [json.loads]: [None] is any exception *)
  json_loads : string -> option pyval;
  (** the child process of an iteration: return code and the two readings of
      [datetime.now()] around it; [None] when starting it raises *)
  subprocess_run : pyval -> nat -> option (Z * Z * Z);
  (** the system call behind [time.sleep], for a pause the interpreter has
      converted, in the world as it is when the script pauses: [false] when
      the call fails, which [time.sleep] reports as [OSError] *)
  clock_nanosleep : world -> Z -> bool
}.

(** ** The script *)

Definition _DEFAULT_RUNS : Z := 8.
Definition _DEFAULT_PAUSE : Z := 5.

(** The attributes of the object that [__init__] sets from the options;
    [self.timings] is in the world. *)
Record SPscript : Type := Script {
  mode_prl : bool;
  command : pyval;
  runs : Z;
  pause : Z
}.

Definition set_command (self : SPscript) (v : pyval) : SPscript :=
  Script (mode_prl self) v (runs self) (pause self).
Definition set_runs (self : SPscript) (n : Z) : SPscript :=
  Script (mode_prl self) (command self) n (pause self).
Definition set_pause (self : SPscript) (n : Z) : SPscript :=
  Script (mode_prl self) (command self) (runs self) n.
Definition set_mode_prl (self : SPscript) (b : bool) : SPscript :=
  Script b (command self) (runs self) (pause self).

(** The four attribute assignments that open [__init__]. *)
Definition defaults : SPscript :=
  Script false (PStr EmptyString) _DEFAULT_RUNS _DEFAULT_PAUSE.

Definition TIME_NONE : Z := datetime MINYEAR 1 1.

Definition blank_timing : timing := Timing 0 TIME_NONE TIME_NONE 0.

Section Script.

Context (H : host).

Local Open Scope string_scope.

(** The built-in [int] on the values an option can carry. *)
Definition py_int (v : pyval) : result Z :=
  match v with
  | PStr s =>
      match int_of_str H s with
      | Some n => Ok n
      | None => Raise ValueError
      end
  | PInt n => Ok n
  | PBool b => Ok (if b then 1 else 0)
  | PFloat f => int_of_float f
  | PNone | PList _ | PDict _ => Raise TypeError
  end.

(** [json_data.items()] *)
Definition items (v : pyval) : result (list (string * pyval)) :=
  match v with
  | PDict d => Ok d
  | _ => Raise AttributeError
  end.

Definition no_command {A} : M A :=
  print PrNoCommand ;; exit 2.

Definition is_opt (opt short key : string) : bool :=
  String.eqb opt short || String.eqb (str_upper H opt) key.

(** The body of the loop over [opts] (lines 101 to 109). *)
Definition apply_option (self : SPscript) (entry : string * pyval) : M SPscript :=
  let '(opt, value) := entry in
  self' <-
    (if is_opt opt "-c" "COMMAND" then ret (set_command self value)
     else if is_opt opt "-n" "TIMES" then
       n <- lift (py_int value) ;; ret (set_runs self n)
     else if is_opt opt "-w" "SECONDS" then
       n <- lift (py_int value) ;; ret (set_pause self n)
     else if is_opt opt "-p" "PARALLEL" then ret (set_mode_prl self true)
     else if String.eqb opt "-h" || String.eqb opt "--help" then
       print PrHelp ;; exit 0
     else ret self) ;;
  if ((runs self' <? 1) || (pause self' <? 0))%Z then raise ValueError
  else ret self'.

(** The loop over [opts] (lines 100 to 109), from the four attribute
    assignments that open [__init__]. *)
Definition configure (opts : list (string * pyval)) : M SPscript :=
  for_each opts apply_option defaults.

(** The file branch (lines 84 to 99): the option list read from the file. *)
Definition load_file (filename : string) : M (list (string * pyval)) :=
  if negb (isfile H filename) then
    print (PrFileNotFound filename) ;; exit 2
  else
    match read_file H filename with
    | None => print (PrReadError filename) ;; exit 2
    | Some json_text =>
        match json_loads H json_text with
        | None => print (PrJsonError filename json_text) ;; exit 2
        | Some json_data => lift (items json_data)
        end
    end.

(** The options of the command line, as entries of the loop. *)
Definition as_entries (opts : list opt_entry) : list (string * pyval) :=
  map (fun '(o, v) => (o, PStr v)) opts.

(** The [try] block of [__init__] (lines 80 to 109). *)
Definition parse_params (cmdl_params : list string) : M SPscript :=
  parsed <- lift (getopt cmdl_params "c:n:w:ph" ["help"]) ;;
  let '(opts, args) := parsed in
  (match opts, args with
   | [], [] => no_command
   | _, _ => ret tt
   end) ;;
  opts <- match args with
          | filename :: _ => load_file filename
          | [] => ret (as_entries opts)
          end ;;
  configure opts.

(** The two [except] clauses (lines 110 to 115). *)
Definition except_init {A} (body : M A) : M A :=
  fun w =>
    match body w with
    | (Raise ValueError, w') => (print PrValueError ;; exit 2) w'
    | (Raise (GetoptError msg _), w') => (print (PrGetoptError msg) ;; exit 2) w'
    | other => other
    end.

(** [SPscript.__init__] *)
Definition __init__ (cmdl_params : list string) : M SPscript :=
  self <- except_init (parse_params cmdl_params) ;;
  (if negb (truthy (command self)) then no_command else ret tt) ;;
  put_timings (repeat blank_timing (Z.to_nat (runs self))) ;;
  ret self.

(** Assignment to one key of [self.timings[iteration]]. *)
Definition set_slot (iteration : nat) (f : timing -> timing) : M unit :=
  ts <- get_timings ;;
  match ts !! iteration with
  | Some t => put_timings (<[iteration := f t]> ts)
  | None => raise IndexError
  end.

(** [SPscript.run_command] *)
Definition run_command (self : SPscript) (iteration : nat) : M unit :=
  launch iteration ;;
  match subprocess_run H (command self) iteration with
  | None => raise HostError
  | Some (returncode, data_start, data_finish) =>
      set_slot iteration
        (fun t => Timing returncode (start t) (finish t) (time t)) ;;
      set_slot iteration
        (fun t => Timing (e_code t) data_start (finish t) (time t)) ;;
      set_slot iteration
        (fun t => Timing (e_code t) (start t) data_finish (time t)) ;;
      d <- lift (dt_sub data_finish data_start) ;;
      set_slot iteration
        (fun t => Timing (e_code t) (start t) (finish t) d)
  end.

(** [Thread(target=self.run_command, args=(i,)).start()], seen from the
    launching thread at the time of [join]: an exception of the worker ends
    the worker only.  Each worker writes its own slot and nothing reads the
    slots before the joins, so the writes are made at the launch. *)
Definition thread_start (self : SPscript) (iteration : nat) : M unit :=
  fun w =>
    match run_command self iteration w with
    | (Ok _, w') => (Ok tt, w')
    | (_, w') => (Ok tt, w')
    end.

(** The accumulators of the loop over [self.timings] (lines 181 to 193). *)
Record totals : Type := Totals {
  min_start : Z;
  max_finish : Z;
  sum_time : Z;
  min_time : Z;
  max_time : Z;
  error_cnt : Z
}.

Definition totals0 : totals :=
  Totals (datetime MAXYEAR 12 31) (datetime MINYEAR 1 1) 0
         timedelta_max timedelta_min 0.

Definition accumulate (acc : totals) (t : timing) : M totals :=
  let error_cnt' := if (e_code t =? 0)%Z then error_cnt acc else (error_cnt acc + 1)%Z in
  let min_start' := if (start t <? min_start acc)%Z then start t else min_start acc in
  let max_finish' := if (max_finish acc <? finish t)%Z then finish t else max_finish acc in
  let min_time' := if (time t <? min_time acc)%Z then time t else min_time acc in
  let max_time' := if (max_time acc <? time t)%Z then time t else max_time acc in
  sum_time' <- lift (td_add (sum_time acc) (time t)) ;;
  ret (Totals min_start' max_finish' sum_time' min_time' max_time' error_cnt').

(** Results processing (lines 180 to 204). *)
Definition results_processing (self : SPscript) : M unit :=
  ts <- get_timings ;;
  acc <- for_each ts accumulate totals0 ;;
  total_time <- lift (dt_sub (max_finish acc) (min_start acc)) ;;
  print (PrTotal total_time) ;;
  print (PrFastest (min_time acc)) ;;
  print (PrSlowest (max_time acc)) ;;
  divisor <- lift (float_of_int (runs self)) ;;
  average <- lift (td_truediv_float (sum_time acc) divisor) ;;
  print (PrAverage average) ;;
  let times := merge_sort Z.le (map time ts) in
  let mid_pos := (runs self / 2)%Z in
  lo <- lift (getitem times mid_pos) ;;
  hi <- lift (getitem times (Z.lnot mid_pos)) ;;
  both <- lift (td_add lo hi) ;;
  median <- lift (td_mul_float both (FFinite 1 (-1))) ;;
  print (PrMedian median) ;;
  if negb (error_cnt acc =? 0)%Z then print (PrAttention (error_cnt acc))
  else ret tt.

(** [time.sleep] for an [int] number of seconds: the conversion to
    nanoseconds in 64 bits, the test of the sign, then the system call. *)
Definition sleep (secs : Z) : M unit :=
  fun w =>
    if ((secs <? Z.quot (- 2 ^ 63) (10 ^ 9))
        || (Z.quot (2 ^ 63 - 1) (10 ^ 9) <? secs))%Z
    then (Raise OverflowError, w)
    else if (secs <? 0)%Z then (Raise ValueError, w)
    else if clock_nanosleep H w secs then (Ok tt, w)
    else (Raise OSError, w).

(** One round of the launching loop (lines 165 to 174). *)
Definition iteration_body (self : SPscript) (_ : unit) (i : nat) : M unit :=
  print (PrStarting (Z.of_nat i + 1)) ;;
  (if mode_prl self then
     thread_start self i ;; print PrStarted
   else
     run_command self i ;;
     ts <- get_timings ;;
     t <- lift (getitem ts (Z.of_nat i)) ;;
     print (PrDoneIn (time t))) ;;
  if (Z.of_nat i + 1 <? runs self)%Z then sleep (pause self) else ret tt.

(** [SPscript.execute] *)
Definition execute (self : SPscript) : M unit :=
  print (PrExecuting (command self) (runs self) (pause self)) ;;
  print (if mode_prl self then PrParallelMode else PrSequentialMode) ;;
  for_each (seq 0 (Z.to_nat (runs self))) (iteration_body self) tt ;;
  (if mode_prl self then print PrWaiting ;; print PrDone else ret tt) ;;
  results_processing self.

(** The [__main__] block: the exit status of the process and the world it
    leaves. *)
Definition main (argv : list string) (w : world) : Z * world :=
  match (script <- __init__ (tail argv) ;; execute script) w with
  | (Ok _, w') => (0%Z, w')
  | (Raise e, w') => (1%Z, snd (print (PrUnhandled e) w'))
  | (Exit code, w') => (code, w')
  end.

End Script.


(** ** A host for ASCII text

    [str.upper] and [int] restricted to ASCII strings, files given as a table
    from names to contents, and [json.loads] as a table from texts to the
    values they denote; the clock of the machine is given by its uptime. *)

Module AsciiHost.

Local Open Scope nat_scope.

Definition upper_ascii (c : ascii) : ascii :=
  let n := nat_of_ascii c in
  if (97 <=? n) && (n <=? 122) then ascii_of_nat (n - 32) else c.

Fixpoint upper (s : string) : string :=
  match s with
  | EmptyString => EmptyString
  | String c rest => String (upper_ascii c) (upper rest)
  end.

(** The white space [int] strips from an ASCII string. *)
Definition is_space (c : ascii) : bool :=
  let n := nat_of_ascii c in
  ((9 <=? n) && (n <=? 13)) || (n =? 32).

Definition digit_value (c : ascii) : option Z :=
  let n := nat_of_ascii c in
  if (48 <=? n) && (n <=? 57) then Some (Z.of_nat (n - 48)) else None.

Fixpoint lstrip (l : list ascii) : list ascii :=
  match l with
  | c :: rest => if is_space c then lstrip rest else l
  | [] => []
  end.

Definition strip (l : list ascii) : list ascii :=
  rev (lstrip (rev (lstrip l))).

(** Decimal digits, single underscores allowed between two digits. *)
Fixpoint digits (acc : Z) (after_digit : bool) (l : list ascii) : option Z :=
  match l with
  | [] => if after_digit then Some acc else None
  | c :: rest =>
      if Ascii.eqb c "_" then
        (if after_digit then digits acc false rest else None)
      else
        match digit_value c with
        | Some d => digits (10 * acc + d)%Z true rest
        | None => None
        end
  end.

Definition int_literal (s : string) : option Z :=
  match strip (list_ascii_of_string s) with
  | c :: rest =>
      if Ascii.eqb c "-" then option_map Z.opp (digits 0%Z false rest)
      else if Ascii.eqb c "+" then digits 0%Z false rest
      else digits 0%Z false (c :: rest)
  | [] => None
  end.

Fixpoint assoc {A} (k : string) (table : list (string * A)) : option A :=
  match table with
  | [] => None
  | (k', v) :: rest => if String.eqb k k' then Some v else assoc k rest
  end.

(** The system call on a machine whose monotonic clock reads [uptime]
    seconds: the deadline of the pause, in nanoseconds, has to fit in 63
    bits. *)
Definition nanosleep (uptime : Z) (_ : world) (secs : Z) : bool :=
  ((uptime + secs) * 10 ^ 9 <=? 2 ^ 63 - 1)%Z.

Definition make (files : list (string * string))
           (documents : list (string * pyval))
           (children : pyval -> nat -> option (Z * Z * Z))
           (uptime : Z) : host :=
  Host upper int_literal
       (fun name => match assoc name files with Some _ => true | None => false end)
       (fun name => assoc name files)
       (fun text => assoc text documents)
       children
       (nanosleep uptime).

End AsciiHost.

(** ** Completed run sets *)

(** A record written by a run that finished: two readings of the clock, the
    first one before the last day the calendar can represent, and their
    difference. *)
Record completed_run (t : timing) : Prop := CompletedRun {
  run_start : 0 <= start t <= datetime MAXYEAR 12 31;
  run_finish : 0 <= finish t <= datetime_max;
  run_time : time t = finish t - start t
}.

(** The running sum of the loop stays a [timedelta]. *)
Fixpoint sums_in_range (acc : Z) (durations : list Z) : Prop :=
  match durations with
  | [] => True
  | d :: rest =>
      timedelta_min <= acc + d <= timedelta_max /\ sums_in_range (acc + d) rest
  end.

Record completed (self : SPscript) (ts : list timing) : Prop := Completed {
  cr_length : Z.of_nat (length ts) = runs self;
  cr_runs : 1 <= runs self < 2 ^ 53;
  cr_each : Forall completed_run ts;
  cr_sum : sums_in_range 0 (map time ts)
}.

(** The record [run_command] leaves in the slot of an iteration. *)
Definition child_record (H : host) (cmd : pyval) (i : nat) : option timing :=
  match subprocess_run H cmd i with
  | Some (returncode, data_start, data_finish) =>
      Some (Timing returncode data_start data_finish (data_finish - data_start))
  | None => None
  end.

(** Every child of iterations [k] to [k + m - 1] can be started and is timed
    by a clock within the calendar. *)
Definition children_complete (H : host) (cmd : pyval) (k m : nat) : Prop :=
  forall i, (k <= i < k + m)%nat ->
    exists t, child_record H cmd i = Some t /\ completed_run t.

(** The longest pause [time.sleep] converts to nanoseconds. *)
Definition longest_sleep : Z := (2 ^ 63 - 1) / 10 ^ 9.

(** A pause that [time.sleep] converts and that the system call accepts
    whenever the script pauses. *)
Definition pause_accepted (H : host) (secs : Z) : Prop :=
  secs <= longest_sleep /\ forall w, clock_nanosleep H w secs = true.

Definition is_min (m : Z) (l : list Z) : Prop :=
  In m l /\ Forall (fun x => m <= x) l.

Definition is_max (m : Z) (l : list Z) : Prop :=
  In m l /\ Forall (fun x => x <= m) l.

Definition sum_list (l : list Z) : Z := fold_right Z.add 0 l.

Definition failed (t : timing) : bool := negb (e_code t =? 0).

(** The loop body of results processing when the sum does not overflow. *)
Definition accumulate_pure (acc : totals) (t : timing) : totals :=
  Totals (Z.min (start t) (min_start acc))
         (Z.max (finish t) (max_finish acc))
         (sum_time acc + time t)
         (Z.min (time t) (min_time acc))
         (Z.max (time t) (max_time acc))
         (error_cnt acc + (if failed t then 1 else 0)).

(** The lines that results processing adds to the console. *)
Definition report (self : SPscript) (w : world) : list line :=
  drop (length (stdout w)) (stdout (snd (results_processing self w))).

(** The values of the lines of one kind among printed lines. *)
Definition total_line (l : line) : option Z :=
  match l with PrTotal td => Some td | _ => None end.
Definition fastest_line (l : line) : option Z :=
  match l with PrFastest td => Some td | _ => None end.
Definition slowest_line (l : line) : option Z :=
  match l with PrSlowest td => Some td | _ => None end.
Definition average_line (l : line) : option Z :=
  match l with PrAverage td => Some td | _ => None end.
Definition median_line (l : line) : option Z :=
  match l with PrMedian td => Some td | _ => None end.
Definition attention_line (l : line) : option Z :=
  match l with PrAttention n => Some n | _ => None end.

Definition reported (kind : line -> option Z) (ls : list line) : list Z :=
  omap kind ls.

(** ** Options, as the chain of tests of the loop tells them apart *)

Inductive kind : Type :=
| KCommand
| KRuns
| KPause
| KParallel
| KHelp
| KUnknown.

Definition classify (H : host) (opt : string) : kind :=
  if is_opt H opt "-c" "COMMAND" then KCommand
  else if is_opt H opt "-n" "TIMES" then KRuns
  else if is_opt H opt "-w" "SECONDS" then KPause
  else if is_opt H opt "-p" "PARALLEL" then KParallel
  else if (String.eqb opt "-h" || String.eqb opt "--help")%bool then KHelp
  else KUnknown.

(** The key names of a file, as the help text of the script gives them, and
    the keys that are one of them in some case. *)
Definition key_names : list string :=
  ["COMMAND"; "TIMES"; "SECONDS"; "PARALLEL"]%string.

Definition named_key (H : host) (opt : string) : bool :=
  existsb (String.eqb (str_upper H opt)) key_names.

(** The spellings of the options of the command line. *)
Definition option_spelling (opt : string) : bool :=
  existsb (String.eqb opt) ["-c"; "-n"; "-w"; "-p"; "-h"; "--help"]%string.

(** The value a file gives under [name]: that of the last entry whose key
    is [name] in some case. *)
Fixpoint file_value (H : host) (name : string)
         (entries : list (string * pyval)) : option pyval :=
  match entries with
  | [] => None
  | (key, value) :: rest =>
      match file_value H name rest with
      | Some later => Some later
      | None => if String.eqb (str_upper H key) name then Some value else None
      end
  end.

(** The option list the loop of [__init__] runs over: the options of the
    command line when no file is named, the entries of the file when one is
    named, read and decoded. *)
Definition effective_options (H : host) (cmdl_params : list string)
           (entries : list (string * pyval)) : Prop :=
  exists opts args,
    getopt cmdl_params "c:n:w:ph" ["help"] = Ok (opts, args) /\
    match args with
    | [] => opts <> [] /\ entries = as_entries opts
    | filename :: _ =>
        isfile H filename = true /\
        exists json_text,
          read_file H filename = Some json_text /\
          json_loads H json_text = Some (PDict entries)
    end.

(** A computation that starts no command. *)
Definition launches_nothing {A} (m : M A) : Prop :=
  forall w, launched (snd (m w)) = launched w.

(** The values of the attributes the loop checks after every option. *)
Definition admissible (self : SPscript) : Prop :=
  1 <= runs self /\ 0 <= pause self.

(** What [__init__] does once the option list is fixed. *)
Definition init_from_options (H : host) (entries : list (string * pyval))
  : M SPscript :=
  (self <- except_init (configure H entries) ;;
   (if negb (truthy (command self)) then no_command else ret tt) ;;
   put_timings (repeat blank_timing (Z.to_nat (runs self))) ;;
   ret self)%script.

(** A value for the number of runs ([least = 1]) or for the pause
    ([least = 0]) that the loop rejects with [ValueError]: text that is not
    an integer, or an integer below the least one allowed. *)
Definition rejected_number (H : host) (least : Z) (value : pyval) : Prop :=
  match value with
  | PStr s =>
      match int_of_str H s with
      | None => True
      | Some n => n < least
      end
  | PInt n => n < least
  | _ => False
  end.

Definition least_allowed (k : kind) : option Z :=
  match k with
  | KRuns => Some 1
  | KPause => Some 0
  | _ => None
  end.

(** ** Concrete run sets and invocations *)

Module Scenario.

Local Open Scope string_scope.

(** Two sequential runs of 1000 and 1001 microseconds. *)
Definition two_runs : list timing :=
  [Timing 0 1000 2000 1000; Timing 0 3000 4001 1001].

(** Three overlapping runs, the second of which failed. *)
Definition three_runs : list timing :=
  [Timing 0 1000 2000 1000; Timing 3 1010 1510 500; Timing 0 1020 2220 1200].

(** Run sets of one, four and five runs. *)
Definition one_run : list timing := [Timing 0 0 700 700].

Definition four_runs : list timing :=
  [Timing 0 0 400 400; Timing 0 1000 1100 100; Timing 0 2000 2300 300;
   Timing 0 3000 3200 200].

Definition five_runs : list timing :=
  [Timing 0 0 500 500; Timing 0 1000 1100 100; Timing 0 2000 2400 400;
   Timing 0 3000 3200 200; Timing 0 4000 4300 300].

Definition script (n : Z) : SPscript := Script false (PStr "true") n 5.

Definition after_runs (ts : list timing) : world := World [] [] ts.

Definition quoted (s : string) : string :=
  String "034" s ++ String "034" EmptyString.

(** The file of the specification's scenario. *)
Definition cfg_json : string :=
  "{" ++ quoted "COMMAND" ++ ": " ++ quoted "echo b" ++ ", "
      ++ quoted "SECONDS" ++ ": 1}".

(** A file with an entry spelled like the help option. *)
Definition help_json : string :=
  "{" ++ quoted "COMMAND" ++ ": " ++ quoted "echo b" ++ ", "
      ++ quoted "-h" ++ ": 0}".

(** A file whose number of runs is [null]. *)
Definition null_json : string :=
  "{" ++ quoted "COMMAND" ++ ": " ++ quoted "true" ++ ", "
      ++ quoted "TIMES" ++ ": null}".

(** A file that gives the number of runs and the mode under the spellings
    of the options. *)
Definition options_json : string :=
  "{" ++ quoted "COMMAND" ++ ": " ++ quoted "echo b" ++ ", "
      ++ quoted "-n" ++ ": 3, " ++ quoted "-p" ++ ": null}".

(** A file that names the four keys in mixed case. *)
Definition mixed_json : string :=
  "{" ++ quoted "Command" ++ ": " ++ quoted "echo b" ++ ", "
      ++ quoted "times" ++ ": " ++ quoted "3" ++ ", "
      ++ quoted "SECONDS" ++ ": 1, " ++ quoted "Parallel" ++ ": false}".

(** A file that asks for two runs. *)
Definition two_json : string :=
  "{" ++ quoted "COMMAND" ++ ": " ++ quoted "true" ++ ", "
      ++ quoted "TIMES" ++ ": 2}".

Definition files : list (string * string) :=
  [("cfg.json", cfg_json); ("help.json", help_json); ("null.json", null_json);
   ("two.json", two_json); ("options.json", options_json);
   ("mixed.json", mixed_json)].

Definition documents : list (string * pyval) :=
  [(cfg_json, PDict [("COMMAND", PStr "echo b"); ("SECONDS", PInt 1)]);
   (help_json, PDict [("COMMAND", PStr "echo b"); ("-h", PInt 0)]);
   (null_json, PDict [("COMMAND", PStr "true"); ("TIMES", PNone)]);
   (two_json, PDict [("COMMAND", PStr "true"); ("TIMES", PInt 2)]);
   (options_json,
    PDict [("COMMAND", PStr "echo b"); ("-n", PInt 3); ("-p", PNone)]);
   (mixed_json,
    PDict [("Command", PStr "echo b"); ("times", PStr "3");
           ("SECONDS", PInt 1); ("Parallel", PBool false)])].

(** Every child succeeds after one second; iteration [i] starts [2 i]
    seconds after the first one. *)
Definition children (_ : pyval) (i : nat) : option (Z * Z * Z) :=
  Some (0, 2000000 * Z.of_nat i, 2000000 * Z.of_nat i + 1000000)%Z.

(** The machine has been up for a day. *)
Definition uptime : Z := 86400.

Definition machine : host := AsciiHost.make files documents children uptime.

End Scenario.


(** ** Invariants of computations *)

(** A computation that keeps the number of records of [self.timings]. *)
Definition keeps_slots {A} (m : M A) : Prop :=
  forall w, length (timings (snd (m w))) = length (timings w).

(** A computation that writes no record but the one of [iteration]. *)
Definition writes_only {A} (iteration : nat) (m : M A) : Prop :=
  forall w j, j <> iteration -> timings (snd (m w)) !! j = timings w !! j.

(** A result that is not [sys.exit]. *)
Definition no_exit {A} (r : result A) : Prop :=
  match r with
  | Exit _ => False
  | _ => True
  end.

(** A computation that leaves by [sys.exit] with one of the listed codes
    only. *)
Definition exits_within {A} (codes : list Z) (m : M A) : Prop :=
  forall w code w', m w = (Exit code, w') -> In code codes.

(** Runs that follow one another on a clock that does not go back: each one
    starts no earlier than [from], the end of the one before. *)
Fixpoint back_to_back (from : Z) (ts : list timing) : Prop :=
  match ts with
  | [] => True
  | t :: rest =>
      from <= start t /\ start t <= finish t /\ back_to_back (finish t) rest
  end.

(** ** More machines *)

Module Machines.

(** Every child takes one second; the second one ends with status 3. *)
Definition failing_children (_ : pyval) (i : nat) : option (Z * Z * Z) :=
  Some (if Nat.eqb i 1 then 3 else 0,
        2000000 * Z.of_nat i, 2000000 * Z.of_nat i + 1000000)%Z.

(** The second child cannot be started. *)
Definition broken_children (_ : pyval) (i : nat) : option (Z * Z * Z) :=
  if Nat.eqb i 1 then None
  else Some (0, 2000000 * Z.of_nat i, 2000000 * Z.of_nat i + 1000000)%Z.

(** No file at all. *)
Definition bare (children : pyval -> nat -> option (Z * Z * Z)) : host :=
  AsciiHost.make [] [] children Scenario.uptime.

(** A file that exists and cannot be read, and one that is not JSON. *)
Definition damaged : host :=
  Host AsciiHost.upper AsciiHost.int_literal
       (fun name => String.eqb name "locked.json" || String.eqb name "text.json")
       (fun name => if String.eqb name "text.json" then Some "not json"%string
                    else None)
       (fun _ => None)
       Scenario.children
       (AsciiHost.nanosleep Scenario.uptime).

End Machines.
(** * Properties *)

(** ** Rounding to the nearest integer *)

Lemma divide_nearest_spec a b :
  0 < b ->
  - b <= 2 * (a - b * divide_nearest a b) <= b /\
  (2 * Z.abs (a - b * divide_nearest a b) = b ->
   Z.even (divide_nearest a b) = true).
Proof.
  intros Hb. unfold divide_nearest.
  pose proof (Z.div_mod a b ltac:(lia)) as Hdm.
  pose proof (Z.mod_pos_bound a b Hb) as Hr.
  rewrite (Z.abs_eq b), (Z.abs_eq (a mod b)) by lia.
  destruct (Z.ltb_spec b (2 * (a mod b))) as [Hlt|Hge]; cbn [orb].
  - split; [lia|]. intros Heq. lia.
  - destruct (Z.eqb_spec (2 * (a mod b)) b) as [Heq|Hne]; cbn [andb].
    + destruct (Z.odd (a / b)) eqn:Hodd.
      * split; [lia|]. intros _.
        replace (a / b + 1) with (Z.succ (a / b)) by lia.
        now rewrite Z.even_succ.
      * split; [lia|]. intros _. now rewrite <- Z.negb_odd, Hodd.
    + split; [lia|]. intros Heq. lia.
Qed.

Lemma divide_nearest_between a b lo hi :
  0 < b -> lo * b <= a <= hi * b -> lo <= divide_nearest a b <= hi.
Proof.
  intros Hb Ha. destruct (divide_nearest_spec a b Hb) as [Hq _]. nia.
Qed.

Lemma divide_nearest_exact k b : 0 < b -> divide_nearest (k * b) b = k.
Proof.
  intros Hb. destruct (divide_nearest_spec (k * b) b Hb) as [Hq _]. nia.
Qed.

(** ** Calendar constants *)

Lemma sentinel_max_eq : datetime MAXYEAR 12 31 = 315537811200000000.
Proof. reflexivity. Qed.

Lemma sentinel_min_eq : datetime MINYEAR 1 1 = 0.
Proof. reflexivity. Qed.

Lemma datetime_max_eq : datetime_max = 315537897599999999.
Proof. reflexivity. Qed.

Lemma timedelta_min_eq : timedelta_min = -86399999913600000000.
Proof. reflexivity. Qed.

Lemma timedelta_max_eq : timedelta_max = 86399999999999999999.
Proof. reflexivity. Qed.

Ltac calendar :=
  rewrite ?sentinel_max_eq, ?sentinel_min_eq, ?datetime_max_eq,
    ?timedelta_min_eq, ?timedelta_max_eq in *.

Lemma new_delta_ok us :
  timedelta_min <= us <= timedelta_max -> new_delta us = Ok us.
Proof.
  intros Hr. unfold new_delta.
  destruct (Z.leb_spec timedelta_min us); [|lia].
  destruct (Z.leb_spec us timedelta_max); [reflexivity|lia].
Qed.

Lemma completed_run_time t :
  completed_run t -> - datetime_max <= time t <= datetime_max.
Proof. intros [Hs Hf Ht]. calendar. lia. Qed.

(** ** The loop over the timings *)

Lemma accumulate_ok acc t w :
  timedelta_min <= sum_time acc + time t <= timedelta_max ->
  accumulate acc t w = (Ok (accumulate_pure acc t), w).
Proof.
  intros Hr. unfold accumulate, accumulate_pure, bind, lift, td_add, ret, failed.
  rewrite (new_delta_ok _ Hr).
  repeat f_equal.
  - destruct (Z.ltb_spec (start t) (min_start acc)); lia.
  - destruct (Z.ltb_spec (max_finish acc) (finish t)); lia.
  - destruct (Z.ltb_spec (time t) (min_time acc)); lia.
  - destruct (Z.ltb_spec (max_time acc) (time t)); lia.
  - destruct (Z.eqb_spec (e_code t) 0); cbn [negb]; lia.
Qed.

Lemma for_each_accumulate ts : forall acc w,
  sums_in_range (sum_time acc) (map time ts) ->
  for_each ts accumulate acc w = (Ok (fold_left accumulate_pure ts acc), w).
Proof.
  induction ts as [|t ts IH]; intros acc w Hs; [reflexivity|].
  destruct Hs as [Hr Hs]. cbn [for_each fold_left]. unfold bind.
  rewrite (accumulate_ok _ _ _ Hr). now apply IH.
Qed.

Section Folds.

Variables (f : timing -> Z) (g : totals -> Z).

Lemma fold_min_spec ts : forall acc,
  (forall a t, g (accumulate_pure a t) = Z.min (f t) (g a)) ->
  let m := g (fold_left accumulate_pure ts acc) in
  m <= g acc /\ Forall (fun x => m <= x) (map f ts) /\
  (m = g acc \/ In m (map f ts)).
Proof.
  induction ts as [|t ts IH]; intros acc Hg; cbn [fold_left map].
  - repeat split; [lia|constructor|now left].
  - destruct (IH (accumulate_pure acc t) Hg) as (Hle & Hall & Hin).
    rewrite Hg in Hle, Hin. repeat split.
    + lia.
    + constructor; [lia|exact Hall].
    + destruct Hin as [Hin|Hin]; [|right; now right].
      destruct (Z.min_spec (f t) (g acc)) as [[_ Hm]|[_ Hm]]; rewrite Hm in Hin.
      * right; left; now symmetry.
      * now left.
Qed.

Lemma fold_max_spec ts : forall acc,
  (forall a t, g (accumulate_pure a t) = Z.max (f t) (g a)) ->
  let m := g (fold_left accumulate_pure ts acc) in
  g acc <= m /\ Forall (fun x => x <= m) (map f ts) /\
  (m = g acc \/ In m (map f ts)).
Proof.
  induction ts as [|t ts IH]; intros acc Hg; cbn [fold_left map].
  - repeat split; [lia|constructor|now left].
  - destruct (IH (accumulate_pure acc t) Hg) as (Hle & Hall & Hin).
    rewrite Hg in Hle, Hin. repeat split.
    + lia.
    + constructor; [lia|exact Hall].
    + destruct Hin as [Hin|Hin]; [|right; now right].
      destruct (Z.max_spec (f t) (g acc)) as [[_ Hm]|[_ Hm]]; rewrite Hm in Hin.
      * now left.
      * right; left; now symmetry.
Qed.

End Folds.

Lemma fold_sum_spec ts : forall acc,
  sum_time (fold_left accumulate_pure ts acc)
  = sum_time acc + sum_list (map time ts).
Proof.
  induction ts as [|t ts IH]; intros acc; cbn [fold_left map sum_list fold_right].
  - lia.
  - rewrite IH. cbn [accumulate_pure sum_time]. unfold sum_list. lia.
Qed.

Lemma fold_count_spec ts : forall acc,
  error_cnt (fold_left accumulate_pure ts acc)
  = error_cnt acc + Z.of_nat (length (List.filter failed ts)).
Proof.
  induction ts as [|t ts IH]; intros acc; cbn [fold_left List.filter].
  - cbn. lia.
  - rewrite IH. cbn [accumulate_pure error_cnt].
    destruct (failed t); cbn [length]; lia.
Qed.

(** A bounded fold that starts from a sentinel no element exceeds returns an
    element of a non-empty list. *)
Lemma sentinel_min l m sentinel :
  l <> [] -> Forall (fun x => x <= sentinel) l ->
  Forall (fun x => m <= x) l -> (m = sentinel \/ In m l) -> is_min m l.
Proof.
  intros Hne Hb Hall [->|Hin]; [|now split].
  split; [|exact Hall].
  destruct l as [|x l]; [congruence|].
  inversion Hb; inversion Hall; subst. left. lia.
Qed.

Lemma sentinel_max l m sentinel :
  l <> [] -> Forall (fun x => sentinel <= x) l ->
  Forall (fun x => x <= m) l -> (m = sentinel \/ In m l) -> is_max m l.
Proof.
  intros Hne Hb Hall [->|Hin]; [|now split].
  split; [|exact Hall].
  destruct l as [|x l]; [congruence|].
  inversion Hb; inversion Hall; subst. left. lia.
Qed.

(** ** Indexing and the library arithmetic on the values of a run set *)

Lemma getitem_nonneg {A} (l : list A) i :
  0 <= i < Z.of_nat (length l) ->
  exists x, l !! Z.to_nat i = Some x /\ getitem l i = Ok x.
Proof.
  intros Hi. unfold getitem.
  destruct (Z.ltb_spec i 0); [lia|].
  destruct (Z.leb_spec 0 i); [|lia].
  destruct (Z.ltb_spec i (Z.of_nat (length l))); [|lia]. cbn [andb].
  destruct (lookup_lt_is_Some_2 l (Z.to_nat i)) as [x Hx]; [lia|].
  exists x. now rewrite Hx.
Qed.

Lemma getitem_negative {A} (l : list A) i :
  - Z.of_nat (length l) <= i < 0 ->
  exists x, l !! Z.to_nat (i + Z.of_nat (length l)) = Some x /\ getitem l i = Ok x.
Proof.
  intros Hi. unfold getitem.
  destruct (Z.ltb_spec i 0); [|lia].
  destruct (Z.leb_spec 0 (i + Z.of_nat (length l))); [|lia].
  destruct (Z.ltb_spec (i + Z.of_nat (length l)) (Z.of_nat (length l))); [|lia].
  cbn [andb].
  destruct (lookup_lt_is_Some_2 l (Z.to_nat (i + Z.of_nat (length l)))) as [x Hx]; [lia|].
  exists x. now rewrite Hx.
Qed.

Lemma float_of_int_exact n :
  Z.abs n < 2 ^ 53 -> float_of_int n = Ok (FFinite n 0).
Proof.
  intros Hn. unfold float_of_int.
  destruct (Z.ltb_spec (Z.abs n) (2 ^ 53)); [reflexivity|lia].
Qed.

Lemma td_truediv_float_int td n :
  n <> 0 ->
  td_truediv_float td (FFinite n 0) = new_delta (divide_nearest td n).
Proof.
  intros Hn. unfold td_truediv_float, as_integer_ratio. cbn [Z.leb Z.compare rbind].
  rewrite Z.pow_0_r, !Z.mul_1_r.
  destruct (Z.eqb_spec n 0); [contradiction|reflexivity].
Qed.

Lemma td_mul_float_half td :
  td_mul_float td (FFinite 1 (-1)) = new_delta (divide_nearest td 2).
Proof.
  unfold td_mul_float. cbn [as_integer_ratio Z.leb Z.compare rbind].
  change (Z.gcd 1 (2 ^ (- (-1)))) with 1. change (2 ^ (- (-1)) / 1) with 2.
  change (1 / 1) with 1. now rewrite Z.mul_1_r.
Qed.

Lemma sum_between l lo hi :
  Forall (fun x => lo <= x) l -> Forall (fun x => x <= hi) l ->
  lo * Z.of_nat (length l) <= sum_list l <= hi * Z.of_nat (length l).
Proof.
  induction l as [|x l IH]; intros Hlo Hhi; cbn [sum_list fold_right length].
  - lia.
  - inversion Hlo; inversion Hhi; subst.
    specialize (IH ltac:(assumption) ltac:(assumption)). unfold sum_list in IH. lia.
Qed.

Lemma Forall_lookup_Z (P : Z -> Prop) (l : list Z) i x :
  Forall P l -> l !! i = Some x -> P x.
Proof. intros Hall Hx. eapply Forall_lookup_1; eauto. Qed.

(** ** What results processing prints for a completed run set *)

Lemma bind_ok {A B} (m : M A) (k : A -> M B) w a w' :
  m w = (Ok a, w') -> bind m k w = k a w'.
Proof. intros Hm. unfold bind. now rewrite Hm. Qed.

Lemma lift_new_delta {B} us (k : Z -> M B) w :
  timedelta_min <= us <= timedelta_max ->
  bind (lift (new_delta us)) k w = k us w.
Proof. intros Hr. apply bind_ok. unfold lift. now rewrite new_delta_ok. Qed.

Lemma Forall_map_completed (P : Z -> Prop) (f : timing -> Z) ts :
  (forall t, completed_run t -> P (f t)) ->
  Forall completed_run ts -> Forall P (map f ts).
Proof.
  intros HP Hall. induction Hall; cbn [map]; constructor; auto.
Qed.

Lemma middle_positions n :
  1 <= n -> 0 <= n / 2 < n /\ Z.lnot (n / 2) + n = n - 1 - n / 2 /\ - n <= Z.lnot (n / 2) < 0.
Proof.
  intros Hn. pose proof (Z.div_mod n 2 ltac:(lia)).
  pose proof (Z.mod_pos_bound n 2 ltac:(lia)).
  unfold Z.lnot. lia.
Qed.

Lemma results_processing_completed self w :
  completed self (timings w) ->
  let ts := timings w in
  let durations := map time ts in
  let sorted := merge_sort Z.le durations in
  let count := Z.of_nat (length (List.filter failed ts)) in
  exists first last fastest slowest lo hi,
    is_min first (map start ts) /\ is_max last (map finish ts) /\
    is_min fastest durations /\ is_max slowest durations /\
    sorted !! Z.to_nat (runs self / 2) = Some lo /\
    sorted !! Z.to_nat (runs self - 1 - runs self / 2) = Some hi /\
    results_processing self w =
      (Ok tt,
       World (stdout w ++
                [PrTotal (last - first); PrFastest fastest; PrSlowest slowest;
                 PrAverage (divide_nearest (sum_list durations) (runs self));
                 PrMedian (divide_nearest (lo + hi) 2)] ++
                (if count =? 0 then [] else [PrAttention count]))
             (launched w) (timings w)).
Proof.
  intros [Hlen Hruns Heach Hsum] ts durations sorted count.
  fold ts in Hlen, Heach, Hsum. fold durations in Hsum.
  set (acc := fold_left accumulate_pure ts totals0).
  assert (Hne : ts <> []) by (intros E; rewrite E in Hlen; cbn in Hlen; lia).
  assert (Hdne : durations <> [])
    by (unfold durations; destruct ts; [congruence|discriminate]).
  (* the four extrema *)
  destruct (fold_min_spec start min_start ts totals0 (fun _ _ => eq_refl))
    as (_ & Hs2 & Hs3).
  destruct (fold_max_spec finish max_finish ts totals0 (fun _ _ => eq_refl))
    as (_ & Hf2 & Hf3).
  destruct (fold_min_spec time min_time ts totals0 (fun _ _ => eq_refl))
    as (_ & Hn2 & Hn3).
  destruct (fold_max_spec time max_time ts totals0 (fun _ _ => eq_refl))
    as (_ & Hx2 & Hx3).
  fold acc in Hs2, Hs3, Hf2, Hf3, Hn2, Hn3, Hx2, Hx3.
  assert (Bs : Forall (fun x => 0 <= x <= datetime MAXYEAR 12 31) (map start ts))
    by (apply Forall_map_completed; [intros t []; assumption|assumption]).
  assert (Bf : Forall (fun x => 0 <= x <= datetime_max) (map finish ts))
    by (apply Forall_map_completed; [intros t []; assumption|assumption]).
  assert (Bt : Forall (fun x => - datetime_max <= x <= datetime_max) durations)
    by (apply Forall_map_completed; [apply completed_run_time|assumption]).
  assert (Hfirst : is_min (min_start acc) (map start ts)).
  { apply (sentinel_min _ _ (datetime MAXYEAR 12 31)); auto.
    - destruct ts; [congruence|discriminate].
    - eapply Forall_impl; [exact Bs|]. cbn. intros; lia. }
  assert (Hlast : is_max (max_finish acc) (map finish ts)).
  { apply (sentinel_max _ _ (datetime MINYEAR 1 1)); auto.
    - destruct ts; [congruence|discriminate].
    - eapply Forall_impl; [exact Bf|]. cbn. intros; calendar; lia. }
  assert (Hfast : is_min (min_time acc) durations).
  { apply (sentinel_min _ _ timedelta_max); auto.
    eapply Forall_impl; [exact Bt|]. cbn. intros; calendar; lia. }
  assert (Hslow : is_max (max_time acc) durations).
  { apply (sentinel_max _ _ timedelta_min); auto.
    eapply Forall_impl; [exact Bt|]. cbn. intros; calendar; lia. }
  (* the two middle positions of the sorted durations *)
  assert (Hslen : Z.of_nat (length sorted) = runs self).
  { unfold sorted. rewrite (Permutation_length (merge_sort_Permutation Z.le durations)).
    unfold durations. now rewrite length_map. }
  destruct (middle_positions (runs self) ltac:(lia)) as (Hmid & Hmirror & Hneg).
  destruct (getitem_nonneg sorted (runs self / 2) ltac:(lia)) as (lo & Hlo & Glo).
  destruct (getitem_negative sorted (Z.lnot (runs self / 2)) ltac:(lia))
    as (hi & Hhi & Ghi).
  rewrite Hslen, Hmirror in Hhi.
  assert (Bsorted : Forall (fun x => - datetime_max <= x <= datetime_max) sorted).
  { unfold sorted. now rewrite merge_sort_Permutation. }
  pose proof (Forall_lookup_Z _ _ _ _ Bsorted Hlo) as Blo.
  pose proof (Forall_lookup_Z _ _ _ _ Bsorted Hhi) as Bhi.
  cbn beta in Blo, Bhi.
  exists (min_start acc), (max_finish acc), (min_time acc), (max_time acc), lo, hi.
  repeat (split; [assumption|]).
  (* bounds of the printed values *)
  pose proof (proj1 (List.Forall_forall _ _) Bs _ (proj1 Hfirst)) as B1.
  pose proof (proj1 (List.Forall_forall _ _) Bf _ (proj1 Hlast)) as B2.
  pose proof (proj1 (List.Forall_forall _ _) Bt _ (proj1 Hfast)) as B3.
  pose proof (proj1 (List.Forall_forall _ _) Bt _ (proj1 Hslow)) as B4.
  cbn beta in B1, B2, B3, B4.
  assert (Hsumb : min_time acc * runs self <= sum_list durations
                  <= max_time acc * runs self).
  { rewrite <- Hlen. replace (length ts) with (length durations)
      by (unfold durations; apply length_map).
    apply sum_between; [apply Hfast|apply Hslow]. }
  pose proof (divide_nearest_between _ (runs self) _ _ ltac:(lia) Hsumb) as Havg.
  assert (Hmedb : - datetime_max * 2 <= lo + hi <= datetime_max * 2) by lia.
  pose proof (divide_nearest_between _ 2 _ _ ltac:(lia) Hmedb) as Hmed.
  assert (Hsumeq : sum_time acc = sum_list durations)
    by (unfold acc; rewrite fold_sum_spec; reflexivity).
  assert (Hcnteq : error_cnt acc = count)
    by (unfold acc; rewrite fold_count_spec; reflexivity).
  (* running the code *)
  unfold results_processing.
  rewrite (bind_ok get_timings _ w (timings w) w eq_refl).
  rewrite (bind_ok _ _ _ _ _ (for_each_accumulate ts totals0 w Hsum)).
  fold acc. unfold dt_sub.
  rewrite lift_new_delta by (calendar; lia).
  do 3 (erewrite bind_ok by reflexivity).
  erewrite bind_ok
    by (unfold lift; rewrite float_of_int_exact by lia; reflexivity).
  rewrite td_truediv_float_int by lia.
  rewrite Hsumeq.
  rewrite lift_new_delta by (calendar; lia).
  erewrite bind_ok by reflexivity.
  fold ts. fold durations. fold sorted.
  erewrite bind_ok by (unfold lift; rewrite Glo; reflexivity).
  erewrite bind_ok by (unfold lift; rewrite Ghi; reflexivity).
  unfold td_add. rewrite lift_new_delta by (calendar; lia).
  rewrite td_mul_float_half.
  rewrite lift_new_delta by (calendar; lia).
  erewrite bind_ok by reflexivity.
  rewrite Hcnteq.
  destruct (count =? 0); cbn [negb]; unfold print, ret;
    cbn [stdout launched timings]; rewrite <- ?app_assoc; cbn [app];
    rewrite ?app_nil_r; reflexivity.
Qed.

Lemma report_completed self w :
  completed self (timings w) ->
  let ts := timings w in
  let durations := map time ts in
  let sorted := merge_sort Z.le durations in
  let count := Z.of_nat (length (List.filter failed ts)) in
  exists first last fastest slowest lo hi,
    is_min first (map start ts) /\ is_max last (map finish ts) /\
    is_min fastest durations /\ is_max slowest durations /\
    sorted !! Z.to_nat (runs self / 2) = Some lo /\
    sorted !! Z.to_nat (runs self - 1 - runs self / 2) = Some hi /\
    fst (results_processing self w) = Ok tt /\
    report self w =
      [PrTotal (last - first); PrFastest fastest; PrSlowest slowest;
       PrAverage (divide_nearest (sum_list durations) (runs self));
       PrMedian (divide_nearest (lo + hi) 2)] ++
      (if count =? 0 then [] else [PrAttention count]).
Proof.
  intros Hc ts durations sorted count.
  destruct (results_processing_completed self w Hc)
    as (first & last & fastest & slowest & lo & hi & H1 & H2 & H3 & H4 & H5 & H6 & Hrun).
  exists first, last, fastest, slowest, lo, hi.
  repeat (split; [assumption|]).
  unfold report. rewrite Hrun. cbn [fst snd stdout]. split; [reflexivity|].
  now rewrite drop_app_length.
Qed.

Lemma sorted_durations_unique (l sorted_durations : list Z) :
  Sorted Z.le sorted_durations -> Permutation sorted_durations l ->
  sorted_durations = merge_sort Z.le l.
Proof.
  intros Hs Hp.
  apply (Sorted_unique Z.le); [exact Hs|apply Sorted_merge_sort; apply _|].
  now rewrite merge_sort_Permutation.
Qed.

Ltac completed_scenario :=
  constructor;
  [ reflexivity
  | split; [discriminate | reflexivity]
  | repeat constructor; discriminate
  | cbn; calendar; lia ].

(** ** Claims about the statistics *)

(** C1 (as amended).  For a completed run set of [n >= 1] records, with
    [sorted_durations] the durations in ascending order and
    [mid = floor (n / 2)], the reported median is
    [(sorted_durations[mid] + sorted_durations[n - 1 - mid]) / 2] rounded to
    the nearest microsecond, a tie going to the even number of microseconds.
    For odd [n] it is the middle element itself; whenever the two central
    elements add up to an even number of microseconds it is their exact
    average. *)
Theorem median_of_completed_runs self w (sorted_durations : list Z) :
  completed self (timings w) ->
  Sorted Z.le sorted_durations ->
  Permutation sorted_durations (map time (timings w)) ->
  let n := runs self in
  let mid := n / 2 in
  exists lo hi median,
    sorted_durations !! Z.to_nat mid = Some lo /\
    sorted_durations !! Z.to_nat (n - 1 - mid) = Some hi /\
    fst (results_processing self w) = Ok tt /\
    reported median_line (report self w) = [median] /\
    - 1 <= lo + hi - 2 * median <= 1 /\
    (Z.odd (lo + hi) = true -> Z.even median = true) /\
    (Z.even (lo + hi) = true -> 2 * median = lo + hi) /\
    (Z.odd n = true -> median = lo /\ median = hi).
Proof.
  intros Hc Hs Hp n mid.
  rewrite (sorted_durations_unique _ _ Hs Hp).
  destruct (report_completed self w Hc)
    as (first & last & fastest & slowest & lo & hi
        & _ & _ & _ & _ & Hlo & Hhi & Hok & Hrep).
  exists lo, hi, (divide_nearest (lo + hi) 2).
  destruct (divide_nearest_spec (lo + hi) 2 ltac:(lia)) as [Hnear Htie].
  split; [exact Hlo|]. split; [exact Hhi|]. split; [exact Hok|].
  split. { rewrite Hrep. unfold reported. cbn. now destruct (_ =? 0). }
  split; [lia|].
  split. { intros Hodd. apply Z.odd_spec in Hodd as [k Hk]. apply Htie. lia. }
  split. { intros Heven. apply Z.even_spec in Heven as [k Hk]. lia. }
  intros Hodd. apply Z.odd_spec in Hodd as [k Hk].
  assert (Hsame : n - 1 - n / 2 = n / 2).
  { pose proof (Z.div_mod n 2 ltac:(lia)). pose proof (Z.mod_pos_bound n 2 ltac:(lia)). lia. }
  fold n in Hlo, Hhi. rewrite Hsame in Hhi. rewrite Hlo in Hhi.
  injection Hhi as <-. lia.
Qed.

(** The theorem at two runs of 1000 and 1001 microseconds. *)
Lemma median_of_completed_runs_witness :
  exists lo hi median,
    [1000; 1001] !! Z.to_nat (2 / 2) = Some lo /\
    [1000; 1001] !! Z.to_nat (2 - 1 - 2 / 2) = Some hi /\
    fst (results_processing (Scenario.script 2)
           (Scenario.after_runs Scenario.two_runs)) = Ok tt /\
    reported median_line
      (report (Scenario.script 2) (Scenario.after_runs Scenario.two_runs))
    = [median] /\
    - 1 <= lo + hi - 2 * median <= 1 /\
    (Z.odd (lo + hi) = true -> Z.even median = true) /\
    (Z.even (lo + hi) = true -> 2 * median = lo + hi) /\
    (Z.odd 2 = true -> median = lo /\ median = hi).
Proof.
  apply (median_of_completed_runs (Scenario.script 2)
           (Scenario.after_runs Scenario.two_runs) [1000; 1001]).
  - completed_scenario.
  - repeat constructor; discriminate.
  - reflexivity.
Defined.

(** The cases of the specification: one run, four runs, five runs. *)
Example median_of_one_four_five :
  reported median_line
    (report (Scenario.script 1) (Scenario.after_runs Scenario.one_run)) = [700] /\
  reported median_line
    (report (Scenario.script 4) (Scenario.after_runs Scenario.four_runs)) = [250] /\
  reported median_line
    (report (Scenario.script 5) (Scenario.after_runs Scenario.five_runs)) = [300].
Proof. repeat split; reflexivity. Qed.

(** C1, counterexample.  After two runs of 1000 and 1001 microseconds the
    sorted durations are [1000; 1001], both central positions are taken, and
    the reported median is 1000 microseconds, which is not half of their
    sum. *)
Lemma median_exact_average_fails :
  completed (Scenario.script 2) (timings (Scenario.after_runs Scenario.two_runs)) /\
  Sorted Z.le [1000; 1001] /\
  Permutation [1000; 1001]
    (map time (timings (Scenario.after_runs Scenario.two_runs))) /\
  reported median_line
    (report (Scenario.script 2) (Scenario.after_runs Scenario.two_runs))
  = [1000] /\
  2 * 1000 <> 1000 + 1001.
Proof.
  split; [completed_scenario|].
  split; [repeat constructor; discriminate|].
  split; [reflexivity|].
  split; [reflexivity|lia].
Qed.

(** C6.  For a completed run set the reported total span is the latest
    finish over all records minus the earliest start over all records. *)
Theorem total_span_of_completed_runs self w :
  completed self (timings w) ->
  exists first last,
    is_min first (map start (timings w)) /\
    is_max last (map finish (timings w)) /\
    fst (results_processing self w) = Ok tt /\
    reported total_line (report self w) = [last - first].
Proof.
  intros Hc.
  destruct (report_completed self w Hc)
    as (first & last & fastest & slowest & lo & hi
        & Hfirst & Hlast & _ & _ & _ & _ & Hok & Hrep).
  exists first, last. repeat (split; [assumption|]).
  rewrite Hrep. unfold reported. cbn. now destruct (_ =? 0).
Qed.

(** The theorem at three overlapping runs. *)
Lemma total_span_of_completed_runs_witness :
  exists first last,
    is_min first (map start Scenario.three_runs) /\
    is_max last (map finish Scenario.three_runs) /\
    fst (results_processing (Scenario.script 3)
           (Scenario.after_runs Scenario.three_runs)) = Ok tt /\
    reported total_line
      (report (Scenario.script 3) (Scenario.after_runs Scenario.three_runs))
    = [last - first].
Proof.
  apply (total_span_of_completed_runs (Scenario.script 3)
           (Scenario.after_runs Scenario.three_runs)).
  completed_scenario.
Defined.

(** Three overlapping runs: the span is 1220 microseconds while the
    durations add up to 2700. *)
Example total_span_is_not_the_sum :
  reported total_line
    (report (Scenario.script 3) (Scenario.after_runs Scenario.three_runs))
  = [1220] /\
  sum_list (map time Scenario.three_runs) = 2700.
Proof. split; reflexivity. Qed.

(** C7.  For a completed run set the error count is the number of records
    with a non-zero exit status; the warning line is printed exactly when
    that number is not zero, and it carries that number. *)
Theorem error_count_of_completed_runs self w :
  completed self (timings w) ->
  let error_count := Z.of_nat (length (List.filter failed (timings w))) in
  fst (results_processing self w) = Ok tt /\
  reported attention_line (report self w)
  = (if error_count =? 0 then [] else [error_count]).
Proof.
  intros Hc error_count.
  destruct (report_completed self w Hc)
    as (first & last & fastest & slowest & lo & hi
        & _ & _ & _ & _ & _ & _ & Hok & Hrep).
  split; [exact Hok|].
  rewrite Hrep. unfold reported. cbn. fold error_count.
  now destruct (error_count =? 0).
Qed.

(** The theorem at three runs, one of which failed. *)
Lemma error_count_of_completed_runs_witness :
  fst (results_processing (Scenario.script 3)
         (Scenario.after_runs Scenario.three_runs)) = Ok tt /\
  reported attention_line
    (report (Scenario.script 3) (Scenario.after_runs Scenario.three_runs))
  = [1].
Proof.
  apply (error_count_of_completed_runs (Scenario.script 3)
           (Scenario.after_runs Scenario.three_runs)).
  completed_scenario.
Defined.

(** C8 (as amended).  For a completed run set of [n] records the reported
    average is the sum of the durations divided by [n] and rounded to the
    nearest microsecond, a tie going to the even number of microseconds: it
    is the exact quotient whenever [n] divides the sum, and it is never
    the truncated quotient when another microsecond count is nearer. *)
Theorem average_of_completed_runs self w :
  completed self (timings w) ->
  let n := runs self in
  let total := sum_list (map time (timings w)) in
  exists average,
    fst (results_processing self w) = Ok tt /\
    reported average_line (report self w) = [average] /\
    - n <= 2 * (total - n * average) <= n /\
    (2 * Z.abs (total - n * average) = n -> Z.even average = true) /\
    (forall k, total = n * k -> average = k).
Proof.
  intros Hc n total.
  destruct (report_completed self w Hc)
    as (first & last & fastest & slowest & lo & hi
        & _ & _ & _ & _ & _ & _ & Hok & Hrep).
  pose proof (cr_runs _ _ Hc) as Hn. fold n in Hn.
  exists (divide_nearest total n).
  destruct (divide_nearest_spec total n ltac:(lia)) as [Hnear Htie].
  split; [exact Hok|].
  split. { rewrite Hrep. unfold reported. cbn. now destruct (_ =? 0). }
  split; [exact Hnear|]. split; [exact Htie|].
  intros k ->. rewrite Z.mul_comm. apply divide_nearest_exact. lia.
Qed.

(** The theorem at three runs whose durations add up to 2700 microseconds. *)
Lemma average_of_completed_runs_witness :
  exists average,
    fst (results_processing (Scenario.script 3)
           (Scenario.after_runs Scenario.three_runs)) = Ok tt /\
    reported average_line
      (report (Scenario.script 3) (Scenario.after_runs Scenario.three_runs))
    = [average] /\
    - 3 <= 2 * (2700 - 3 * average) <= 3 /\
    (2 * Z.abs (2700 - 3 * average) = 3 -> Z.even average = true) /\
    (forall k, 2700 = 3 * k -> average = k).
Proof.
  apply (average_of_completed_runs (Scenario.script 3)
           (Scenario.after_runs Scenario.three_runs)).
  completed_scenario.
Defined.

(** C8, counterexample.  After two runs of 1000 and 1001 microseconds the
    reported average is 1000 microseconds: twice it is not the sum of the
    durations. *)
Lemma average_exact_quotient_fails :
  completed (Scenario.script 2) (timings (Scenario.after_runs Scenario.two_runs)) /\
  sum_list (map time (timings (Scenario.after_runs Scenario.two_runs))) = 2001 /\
  reported average_line
    (report (Scenario.script 2) (Scenario.after_runs Scenario.two_runs))
  = [1000] /\
  2 * 1000 <> 2001.
Proof.
  split; [completed_scenario|].
  split; [reflexivity|]. split; [reflexivity|lia].
Qed.

(** C9.  For a completed run set (at least one run) the reported fastest
    and slowest durations are the minimum and the maximum of the durations,
    and both the reported average and the reported median lie between
    them. *)
Theorem statistics_are_ordered self w :
  completed self (timings w) ->
  exists fastest slowest average median,
    is_min fastest (map time (timings w)) /\
    is_max slowest (map time (timings w)) /\
    fst (results_processing self w) = Ok tt /\
    reported fastest_line (report self w) = [fastest] /\
    reported slowest_line (report self w) = [slowest] /\
    reported average_line (report self w) = [average] /\
    reported median_line (report self w) = [median] /\
    fastest <= average <= slowest /\
    fastest <= median <= slowest.
Proof.
  intros Hc.
  destruct (report_completed self w Hc)
    as (first & last & fastest & slowest & lo & hi
        & _ & _ & Hfast & Hslow & Hlo & Hhi & Hok & Hrep).
  pose proof (cr_runs _ _ Hc) as Hn.
  pose proof (cr_length _ _ Hc) as Hlen.
  exists fastest, slowest,
    (divide_nearest (sum_list (map time (timings w))) (runs self)),
    (divide_nearest (lo + hi) 2).
  split; [exact Hfast|]. split; [exact Hslow|]. split; [exact Hok|].
  rewrite Hrep. unfold reported.
  do 4 (split; [cbn; now destruct (_ =? 0)|]).
  split.
  - apply divide_nearest_between; [lia|].
    rewrite <- Hlen, <- (length_map time).
    apply sum_between; [apply Hfast|apply Hslow].
  - assert (Hb : Forall (fun x => fastest <= x <= slowest)
                   (merge_sort Z.le (map time (timings w)))).
    { rewrite merge_sort_Permutation.
      destruct Hfast as [_ Hf], Hslow as [_ Hs].
      rewrite List.Forall_forall in Hf, Hs. apply List.Forall_forall.
      intros x Hx. split; auto. }
    pose proof (Forall_lookup_Z _ _ _ _ Hb Hlo) as Blo.
    pose proof (Forall_lookup_Z _ _ _ _ Hb Hhi) as Bhi.
    cbn beta in Blo, Bhi.
    apply divide_nearest_between; lia.
Qed.

(** The theorem at three runs of 1000, 500 and 1200 microseconds. *)
Lemma statistics_are_ordered_witness :
  exists fastest slowest average median,
    is_min fastest (map time Scenario.three_runs) /\
    is_max slowest (map time Scenario.three_runs) /\
    fst (results_processing (Scenario.script 3)
           (Scenario.after_runs Scenario.three_runs)) = Ok tt /\
    reported fastest_line
      (report (Scenario.script 3) (Scenario.after_runs Scenario.three_runs))
    = [fastest] /\
    reported slowest_line
      (report (Scenario.script 3) (Scenario.after_runs Scenario.three_runs))
    = [slowest] /\
    reported average_line
      (report (Scenario.script 3) (Scenario.after_runs Scenario.three_runs))
    = [average] /\
    reported median_line
      (report (Scenario.script 3) (Scenario.after_runs Scenario.three_runs))
    = [median] /\
    fastest <= average <= slowest /\
    fastest <= median <= slowest.
Proof.
  apply (statistics_are_ordered (Scenario.script 3)
           (Scenario.after_runs Scenario.three_runs)).
  completed_scenario.
Defined.

(** ** The loop over the options *)

Section Options.

Context (H : host).

Lemma for_each_app {A S} (body : S -> A -> M S) (l1 l2 : list A) : forall s w,
  for_each (l1 ++ l2) body s w = bind (for_each l1 body s) (for_each l2 body) w.
Proof.
  induction l1 as [|x l1 IH]; intros s w; cbn [app for_each].
  - reflexivity.
  - unfold bind. destruct (body s x w) as [[s'| |] w']; [|reflexivity..].
    rewrite IH. reflexivity.
Qed.

Ltac run_option :=
  unfold apply_option, classify, bind, lift, ret, raise, exit, print in *.

Lemma apply_option_help self opt value w :
  classify H opt = KHelp ->
  apply_option H self (opt, value) w
  = (Exit 0, World (stdout w ++ [PrHelp]) (launched w) (timings w)).
Proof.
  run_option.
  destruct (is_opt H opt "-c" "COMMAND"); [discriminate|].
  destruct (is_opt H opt "-n" "TIMES"); [discriminate|].
  destruct (is_opt H opt "-w" "SECONDS"); [discriminate|].
  destruct (is_opt H opt "-p" "PARALLEL"); [discriminate|].
  destruct (String.eqb opt "-h" || String.eqb opt "--help")%bool; [|discriminate].
  reflexivity.
Qed.

Lemma apply_option_unknown self opt value w :
  classify H opt = KUnknown -> admissible self ->
  apply_option H self (opt, value) w = (Ok self, w).
Proof.
  intros Hk [Hr Hp]. run_option.
  destruct (is_opt H opt "-c" "COMMAND"); [discriminate|].
  destruct (is_opt H opt "-n" "TIMES"); [discriminate|].
  destruct (is_opt H opt "-w" "SECONDS"); [discriminate|].
  destruct (is_opt H opt "-p" "PARALLEL"); [discriminate|].
  destruct (String.eqb opt "-h" || String.eqb opt "--help")%bool; [discriminate|].
  destruct (Z.ltb_spec (runs self) 1); [lia|].
  destruct (Z.ltb_spec (pause self) 0); [lia|]. reflexivity.
Qed.

Lemma py_int_rejected least value :
  rejected_number H least value ->
  py_int H value = Raise ValueError \/
  exists n, py_int H value = Ok n /\ n < least.
Proof.
  destruct value as [| | n | | s | |]; cbn [rejected_number py_int]; try tauto.
  - intros Hn. right. now exists n.
  - destruct (int_of_str H s) as [n|]; [|now left].
    intros Hn. right. now exists n.
Qed.

Lemma apply_option_rejected self opt value least w :
  least_allowed (classify H opt) = Some least ->
  rejected_number H least value ->
  apply_option H self (opt, value) w = (Raise ValueError, w).
Proof.
  intros Hk Hv. apply py_int_rejected in Hv. run_option.
  destruct (is_opt H opt "-c" "COMMAND"); [discriminate|].
  destruct (is_opt H opt "-n" "TIMES").
  { injection Hk as <-.
    destruct Hv as [->|(n & -> & Hn)]; [reflexivity|]. cbn [set_runs runs pause].
    destruct (Z.ltb_spec n 1); [reflexivity|lia]. }
  destruct (is_opt H opt "-w" "SECONDS").
  { injection Hk as <-.
    destruct Hv as [->|(n & -> & Hn)]; [reflexivity|]. cbn [set_pause runs pause].
    destruct (Z.ltb_spec n 0); [now rewrite orb_true_r|lia]. }
  destruct (is_opt H opt "-p" "PARALLEL"); [discriminate|].
  destruct (String.eqb opt "-h" || String.eqb opt "--help")%bool; discriminate.
Qed.

(** One accepted option: the world is as before, the attributes are
    admissible, and only the attribute of the option's kind may differ. *)
Lemma apply_option_accepted self entry w self' w' :
  apply_option H self entry w = (Ok self', w') ->
  w' = w /\ admissible self' /\
  (classify H (fst entry) <> KRuns -> runs self' = runs self) /\
  (classify H (fst entry) <> KPause -> pause self' = pause self) /\
  (classify H (fst entry) <> KParallel -> mode_prl self' = mode_prl self) /\
  (classify H (fst entry) <> KCommand -> command self' = command self).
Proof.
  destruct entry as [opt value]. cbn [fst]. unfold admissible. run_option.
  destruct (is_opt H opt "-c" "COMMAND");
    [|destruct (is_opt H opt "-n" "TIMES");
      [|destruct (is_opt H opt "-w" "SECONDS");
        [|destruct (is_opt H opt "-p" "PARALLEL");
          [|destruct (String.eqb opt "-h" || String.eqb opt "--help")%bool]]]];
    try destruct (py_int H value) as [n| |]; try discriminate;
    cbn [set_command set_runs set_pause set_mode_prl runs pause mode_prl command];
    match goal with
    | |- context [(?a <? 1) || (?b <? 0)] =>
        destruct (Z.ltb_spec a 1); destruct (Z.ltb_spec b 0); cbn [orb];
        try discriminate
    end;
    intros Heq; injection Heq as <- <-;
    cbn [runs pause mode_prl command]; repeat split; auto; try lia; congruence.
Qed.

Lemma for_each_accepted (entries : list (string * pyval)) : forall self w self' w',
  for_each entries (apply_option H) self w = (Ok self', w') ->
  w' = w /\ (admissible self -> admissible self') /\
  (Forall (fun e => classify H (fst e) <> KRuns) entries -> runs self' = runs self) /\
  (Forall (fun e => classify H (fst e) <> KPause) entries -> pause self' = pause self) /\
  (Forall (fun e => classify H (fst e) <> KParallel) entries ->
   mode_prl self' = mode_prl self).
Proof.
  induction entries as [|e entries IH]; intros self w self' w' Hrun.
  - cbn [for_each] in Hrun. unfold ret in Hrun. injection Hrun as <- <-.
    split; [reflexivity|]. split; [tauto|]. repeat split; reflexivity.
  - cbn [for_each] in Hrun. unfold bind in Hrun.
    destruct (apply_option H self e w) as [[s1| |] w1] eqn:He; try discriminate.
    apply apply_option_accepted in He as (-> & Ha & Hr & Hp & Hm & _).
    apply IH in Hrun as (-> & Ha' & Hr' & Hp' & Hm').
    split; [reflexivity|]. split; [auto|].
    repeat split; intros Hall; inversion Hall; subst.
    + rewrite Hr', Hr; auto.
    + rewrite Hp', Hp; auto.
    + rewrite Hm', Hm; auto.
Qed.

Lemma configure_accepted entries w self :
  fst (configure H entries w) = Ok self ->
  configure H entries w = (Ok self, w) /\ admissible self.
Proof.
  unfold configure. destruct (for_each _ _ _ _) as [r w'] eqn:Hrun.
  cbn [fst]. intros ->.
  apply for_each_accepted in Hrun as Hacc. destruct Hacc as (-> & Ha & _).
  split; [reflexivity|]. apply Ha.
  unfold admissible, defaults, _DEFAULT_RUNS, _DEFAULT_PAUSE. cbn. lia.
Qed.

(** The loop stops at the first entry that raises or exits. *)
Lemma configure_stops before entry after w self r w' :
  fst (configure H before w) = Ok self ->
  apply_option H self entry w = (r, w') ->
  (forall s, r <> Ok s) ->
  configure H (before ++ entry :: after) w = (r, w').
Proof.
  intros Hb He Hr. apply configure_accepted in Hb as [Hb _].
  unfold configure in *. rewrite for_each_app. unfold bind. rewrite Hb.
  cbn [for_each]. unfold bind. rewrite He.
  destruct r as [s| |]; [now destruct (Hr s)|reflexivity..].
Qed.

Lemma parse_params_effective cmdl_params entries w :
  effective_options H cmdl_params entries ->
  parse_params H cmdl_params w = configure H entries w.
Proof.
  intros (opts & args & Hg & Hargs). unfold parse_params.
  unfold bind at 1. unfold lift at 1. rewrite Hg.
  destruct args as [|filename rest].
  - destruct Hargs as [Hne ->]. destruct opts as [|o opts]; [congruence|].
    reflexivity.
  - destruct Hargs as (Hfile & json_text & Hread & Hjson).
    unfold load_file. rewrite Hfile, Hread, Hjson. cbn [negb items].
    destruct opts; reflexivity.
Qed.

Lemma init_effective cmdl_params entries w :
  effective_options H cmdl_params entries ->
  __init__ H cmdl_params w = init_from_options H entries w.
Proof.
  intros He. unfold __init__, init_from_options, bind, except_init.
  now rewrite (parse_params_effective _ _ _ He).
Qed.

Lemma init_from_options_raises entries w w' :
  configure H entries w = (Raise ValueError, w') ->
  init_from_options H entries w
  = (Exit 2, World (stdout w' ++ [PrValueError]) (launched w') (timings w')).
Proof.
  intros Hc. unfold init_from_options, bind, except_init. now rewrite Hc.
Qed.

Lemma init_from_options_exits entries w code w' :
  configure H entries w = (Exit code, w') ->
  init_from_options H entries w = (Exit code, w').
Proof.
  intros Hc. unfold init_from_options, bind, except_init. now rewrite Hc.
Qed.

Lemma main_exits argv w code w' :
  __init__ H (tail argv) w = (Exit code, w') -> main H argv w = (code, w').
Proof. intros Hi. unfold main, bind. now rewrite Hi. Qed.

End Options.

(** ** Configuration errors start no command *)

Create HintDb quiet.

Lemma quiet_ret {A} (a : A) : launches_nothing (ret a).
Proof. intros w. reflexivity. Qed.

Lemma quiet_lift {A} (r : result A) : launches_nothing (lift r).
Proof. intros w. reflexivity. Qed.

Lemma quiet_raise {A} e : launches_nothing (@raise A e).
Proof. intros w. reflexivity. Qed.

Lemma quiet_exit {A} c : launches_nothing (@exit A c).
Proof. intros w. reflexivity. Qed.

Lemma quiet_print l : launches_nothing (print l).
Proof. intros w. reflexivity. Qed.

Lemma quiet_put_timings ts : launches_nothing (put_timings ts).
Proof. intros w. reflexivity. Qed.

Lemma quiet_bind {A B} (m : M A) (k : A -> M B) :
  launches_nothing m -> (forall a, launches_nothing (k a)) ->
  launches_nothing (bind m k).
Proof.
  intros Hm Hk w. unfold bind. specialize (Hm w).
  destruct (m w) as [[a|e|c] w']; cbn [snd] in *; [|assumption..].
  now rewrite Hk.
Qed.

Lemma quiet_for_each {A S} (body : S -> A -> M S) (l : list A) :
  (forall s x, launches_nothing (body s x)) ->
  forall s, launches_nothing (for_each l body s).
Proof.
  intros Hb. induction l as [|x l IH]; intros s; cbn [for_each].
  - apply quiet_ret.
  - apply quiet_bind; [apply Hb|exact IH].
Qed.

Lemma quiet_except_init {A} (m : M A) :
  launches_nothing m -> launches_nothing (except_init m).
Proof.
  intros Hm w. unfold except_init. specialize (Hm w).
  destruct (m w) as [[a|e|c] w']; cbn [snd] in *; [assumption| |assumption].
  destruct e; assumption.
Qed.

Lemma quiet_no_command {A} : launches_nothing (@no_command A).
Proof. apply quiet_bind; [apply quiet_print|intros; apply quiet_exit]. Qed.

#[local] Hint Resolve quiet_ret quiet_lift quiet_raise quiet_exit quiet_print
  quiet_put_timings quiet_no_command : quiet.
#[local] Hint Extern 2 (launches_nothing (bind _ _)) =>
  apply quiet_bind; [|intros] : quiet.
#[local] Hint Extern 2 (launches_nothing (if ?b then _ else _)) =>
  destruct b : quiet.
#[local] Hint Extern 2 (launches_nothing (match ?x with _ => _ end)) =>
  destruct x : quiet.

Lemma quiet_apply_option H self entry :
  launches_nothing (apply_option H self entry).
Proof. destruct entry as [opt value]. unfold apply_option. auto 12 with quiet. Qed.

Lemma quiet_load_file H filename : launches_nothing (load_file H filename).
Proof. unfold load_file. auto 8 with quiet. Qed.

Lemma quiet_init H cmdl_params : launches_nothing (__init__ H cmdl_params).
Proof.
  unfold __init__. apply quiet_bind; [|intros; auto 8 with quiet].
  apply quiet_except_init. unfold parse_params.
  apply quiet_bind; [apply quiet_lift|]. intros [opts args].
  apply quiet_bind; [auto with quiet|]. intros _.
  apply quiet_bind.
  - destruct args; [apply quiet_ret|apply quiet_load_file].
  - intros entries. apply quiet_for_each. intros; apply quiet_apply_option.
Qed.

(** X8.  However [__init__] fails, by an exit or by an exception, no
    command has been started when the process ends. *)
Lemma main_without_script H argv w :
  (forall self, fst (__init__ H (tail argv) w) <> Ok self) ->
  launched (snd (main H argv w)) = launched w.
Proof.
  intros Hf. pose proof (quiet_init H (tail argv) w) as Hq.
  unfold main, bind. destruct (__init__ H (tail argv) w) as [[self|e|c] w'];
    cbn [fst snd] in *; [now destruct (Hf self)|assumption..].
Qed.

(** ** The exits of [__init__] with status 2 *)

(** X2.  When the command line holds neither an option nor a file name, the
    message that no command is given is printed and the process ends with
    status 2. *)
Lemma exit_no_arguments H argv w :
  getopt (tail argv) "c:n:w:ph" ["help"] = Ok ([], []) ->
  main H argv w = (2, World (stdout w ++ [PrNoCommand]) (launched w) (timings w)).
Proof.
  intros Hg. apply main_exits.
  unfold __init__, bind, except_init, parse_params, bind, lift. now rewrite Hg.
Qed.

(** X3.  When [getopt] refuses the command line, its message is printed and
    the process ends with status 2, before any file is looked for. *)
Lemma exit_option_syntax H argv msg opt w :
  getopt (tail argv) "c:n:w:ph" ["help"] = Raise (GetoptError msg opt) ->
  main H argv w
  = (2, World (stdout w ++ [PrGetoptError msg]) (launched w) (timings w)).
Proof.
  intros Hg. apply main_exits.
  unfold __init__, bind, except_init, parse_params, bind, lift. now rewrite Hg.
Qed.

(** X4.  When the file named on the command line is not an existing file,
    this is reported with the name and the process ends with status 2,
    whatever options precede the name. *)
Lemma exit_file_not_found H argv opts filename rest w :
  getopt (tail argv) "c:n:w:ph" ["help"] = Ok (opts, filename :: rest) ->
  isfile H filename = false ->
  main H argv w
  = (2, World (stdout w ++ [PrFileNotFound filename]) (launched w) (timings w)).
Proof.
  intros Hg Hf. apply main_exits.
  unfold __init__, bind, except_init, parse_params, bind, lift, load_file.
  rewrite Hg, Hf. now destruct opts.
Qed.

(** X5.  When the file named on the command line exists and cannot be
    read, this is reported with the name and the process ends with
    status 2. *)
Lemma exit_file_unreadable H argv opts filename rest w :
  getopt (tail argv) "c:n:w:ph" ["help"] = Ok (opts, filename :: rest) ->
  isfile H filename = true -> read_file H filename = None ->
  main H argv w
  = (2, World (stdout w ++ [PrReadError filename]) (launched w) (timings w)).
Proof.
  intros Hg Hf Hr. apply main_exits.
  unfold __init__, bind, except_init, parse_params, bind, lift, load_file.
  rewrite Hg, Hf, Hr. now destruct opts.
Qed.

(** X6.  When the text of the file named on the command line cannot be
    decoded, this is reported with the name and the text and the process
    ends with status 2. *)
Lemma exit_file_undecodable H argv opts filename rest json_text w :
  getopt (tail argv) "c:n:w:ph" ["help"] = Ok (opts, filename :: rest) ->
  isfile H filename = true -> read_file H filename = Some json_text ->
  json_loads H json_text = None ->
  main H argv w
  = (2, World (stdout w ++ [PrJsonError filename json_text])
              (launched w) (timings w)).
Proof.
  intros Hg Hf Hr Hj. apply main_exits.
  unfold __init__, bind, except_init, parse_params, bind, lift, load_file.
  rewrite Hg, Hf, Hr, Hj. now destruct opts.
Qed.

(** X7.  When the loop over the options accepts every entry and the command
    it leaves is empty, the message that no command is given is printed and
    the process ends with status 2. *)
Lemma exit_command_missing H argv entries self w :
  effective_options H (tail argv) entries ->
  fst (configure H entries w) = Ok self ->
  truthy (command self) = false ->
  main H argv w = (2, World (stdout w ++ [PrNoCommand]) (launched w) (timings w)).
Proof.
  intros He Hc Ht. apply main_exits. rewrite (init_effective _ _ _ _ He).
  apply configure_accepted in Hc as [Hc _].
  unfold init_from_options, bind, except_init. rewrite Hc, Ht. reflexivity.
Qed.

(** The status of the process follows the way the script ends. *)
Lemma main_status H argv w :
  fst (main H argv w)
  = match fst (bind (__init__ H (tail argv)) (execute H) w) with
    | Ok _ => 0
    | Raise _ => 1
    | Exit code => code
    end.
Proof.
  unfold main. destruct (bind _ _ w) as [[u|e|c] w']; reflexivity.
Qed.

(** ** From the launching loop to a completed run set *)

Section Launching.

Context (H : host).

Lemma run_command_completes self i w t :
  child_record H (command self) i = Some t -> completed_run t ->
  (i < length (timings w))%nat ->
  run_command H self i w
  = (Ok tt, World (stdout w) (launched w ++ [i]) (<[i := t]> (timings w))).
Proof.
  intros Hc Ht Hi. pose proof (completed_run_time t Ht) as Hb.
  unfold child_record in Hc. unfold run_command.
  destruct (subprocess_run H (command self) i) as [[[rc st] fi]|]; [|discriminate].
  injection Hc as <-. cbn [time] in Hb.
  destruct (lookup_lt_is_Some_2 (timings w) i Hi) as [t0 Ht0].
  unfold bind, launch, set_slot, bind, get_timings, put_timings, lift, dt_sub.
  cbn [timings stdout launched].
  rewrite Ht0. cbn [timings stdout launched].
  rewrite !list_lookup_insert_eq by (rewrite ?length_insert; assumption).
  cbn [timings stdout launched].
  rewrite !list_lookup_insert_eq by (rewrite ?length_insert; assumption).
  cbn [timings stdout launched].
  rewrite new_delta_ok by (calendar; lia).
  rewrite !list_lookup_insert_eq by (rewrite ?length_insert; assumption).
  cbn [e_code start finish time]. rewrite !list_insert_insert_eq. reflexivity.
Qed.

Lemma sleep_ok secs w :
  0 <= secs -> pause_accepted H secs -> sleep H secs w = (Ok tt, w).
Proof.
  intros Hs [Hl Hos]. unfold sleep. unfold longest_sleep in Hl.
  change (Z.quot (- 2 ^ 63) (10 ^ 9)) with (-9223372036).
  change (Z.quot (2 ^ 63 - 1) (10 ^ 9)) with 9223372036.
  change ((2 ^ 63 - 1) / 10 ^ 9) with 9223372036 in Hl.
  destruct (Z.ltb_spec secs (-9223372036)); [lia|].
  destruct (Z.ltb_spec 9223372036 secs); [lia|]. cbn [orb].
  destruct (Z.ltb_spec secs 0); [lia|]. now rewrite Hos.
Qed.

Lemma getitem_slot (ts : list timing) i t :
  (i < length ts)%nat -> getitem (<[i := t]> ts) (Z.of_nat i) = Ok t.
Proof.
  intros Hi.
  destruct (getitem_nonneg (<[i := t]> ts) (Z.of_nat i)) as (x & Hx & Hg).
  { rewrite length_insert. lia. }
  rewrite Nat2Z.id, list_lookup_insert_eq in Hx by assumption.
  injection Hx as <-. exact Hg.
Qed.

(** One round of the loop, in either mode. *)
Lemma iteration_body_completes self i w t :
  child_record H (command self) i = Some t -> completed_run t ->
  (i < length (timings w))%nat ->
  0 <= pause self -> pause_accepted H (pause self) ->
  exists out,
    iteration_body H self tt i w
    = (Ok tt, World (stdout w ++ out) (launched w ++ [i]) (<[i := t]> (timings w))).
Proof.
  intros Hc Ht Hi Hp0 Hp. unfold iteration_body.
  set (w1 := World (stdout w ++ [PrStarting (Z.of_nat i + 1)]) (launched w) (timings w)).
  rewrite (bind_ok (print _) _ w tt w1) by reflexivity.
  pose proof (run_command_completes self i w1 t Hc Ht Hi) as Hrun.
  cbn [stdout launched timings w1] in Hrun.
  assert (Hpause : forall w',
    (if Z.of_nat i + 1 <? runs self then sleep H (pause self) else ret tt) w'
    = (Ok tt, w')).
  { intros w'. destruct (_ <? _); [now apply sleep_ok|reflexivity]. }
  destruct (mode_prl self).
  - exists [PrStarting (Z.of_nat i + 1); PrStarted].
    erewrite bind_ok.
    2:{ erewrite bind_ok; [reflexivity|]. unfold thread_start. now rewrite Hrun. }
    rewrite Hpause. unfold print. cbn [stdout launched timings].
    now rewrite <- app_assoc.
  - exists [PrStarting (Z.of_nat i + 1); PrDoneIn (time t)].
    erewrite bind_ok.
    2:{ erewrite bind_ok; [|exact Hrun].
        erewrite bind_ok; [|reflexivity]. cbn [timings].
        erewrite bind_ok;
          [|unfold lift; rewrite getitem_slot by assumption; reflexivity].
        reflexivity. }
    rewrite Hpause. unfold print. cbn [stdout launched timings].
    now rewrite <- app_assoc.
Qed.

Lemma launching_loop self m : forall k w,
  children_complete H (command self) k m ->
  (k + m <= length (timings w))%nat ->
  0 <= pause self -> pause_accepted H (pause self) ->
  exists out ts,
    for_each (seq k m) (iteration_body H self) tt w
    = (Ok tt, World (stdout w ++ out) (launched w ++ seq k m) ts) /\
    length ts = length (timings w) /\
    (forall i, (k <= i < k + m)%nat ->
       exists t, ts !! i = Some t /\ child_record H (command self) i = Some t) /\
    (forall i, ~ (k <= i < k + m)%nat -> ts !! i = timings w !! i).
Proof.
  induction m as [|m IH]; intros k w Hch Hlen Hp0 Hp.
  - exists [], (timings w). cbn [seq for_each]. unfold ret.
    rewrite !app_nil_r. destruct w. repeat split; auto. intros i Hi. lia.
  - destruct (Hch k ltac:(lia)) as (t & Hc & Ht).
    destruct (iteration_body_completes self k w t Hc Ht ltac:(lia) Hp0 Hp)
      as (out1 & Hbody).
    set (w1 := World (stdout w ++ out1) (launched w ++ [k]) (<[k := t]> (timings w)))
      in Hbody.
    destruct (IH (S k) w1) as (out2 & ts & Hloop & Hl & Hin & Hout).
    { intros i Hi. apply Hch. lia. }
    { cbn [timings w1]. rewrite length_insert. lia. }
    { exact Hp0. }
    { exact Hp. }
    cbn [stdout launched timings w1] in Hloop, Hl, Hout.
    exists (out1 ++ out2), ts. split; [|split; [|split]].
    + cbn [seq for_each]. rewrite (bind_ok _ _ _ _ _ Hbody), Hloop.
      now rewrite <- !app_assoc.
    + now rewrite Hl, length_insert.
    + intros i Hi. destruct (Nat.eq_dec i k) as [->|Hne].
      * exists t. split; [|exact Hc].
        rewrite Hout by lia. apply list_lookup_insert_eq. lia.
      * apply Hin. lia.
    + intros i Hi. rewrite Hout by lia.
      apply list_lookup_insert_ne. lia.
Qed.

(** [execute] on a host whose children all complete: every iteration is
    started once, in order, the records of the children are the timings, and
    the report is printed. *)
Lemma execute_completes self w ts :
  Forall2 (fun i t => child_record H (command self) i = Some t)
          (seq 0 (Z.to_nat (runs self))) ts ->
  completed self ts ->
  0 <= pause self -> pause_accepted H (pause self) ->
  length (timings w) = Z.to_nat (runs self) ->
  exists out,
    execute H self w
    = (Ok tt, World (stdout w ++ out)
                    (launched w ++ seq 0 (Z.to_nat (runs self))) ts).
Proof.
  intros Hrec Hc Hp0 Hp Hlen. set (n := Z.to_nat (runs self)) in *.
  assert (Hn : length ts = n).
  { apply Forall2_length in Hrec. now rewrite length_seq in Hrec. }
  assert (Hch : children_complete H (command self) 0 n).
  { intros i Hi.
    destruct (lookup_lt_is_Some_2 ts i ltac:(lia)) as [t Ht].
    exists t. split.
    - eapply (Forall2_lookup_lr _ _ _ i i t Hrec); [|exact Ht].
      apply lookup_seq. lia.
    - eapply Forall_lookup_1; [apply (cr_each _ _ Hc)|exact Ht]. }
  unfold execute.
  erewrite bind_ok by reflexivity. erewrite bind_ok by reflexivity.
  match goal with
  | |- context [for_each _ _ tt] =>
      match goal with |- exists _, bind _ _ ?w0 = _ => set (w1 := w0) end
  end.
  destruct (launching_loop self n 0 w1 Hch) as (out & ts' & Hloop & Hl & Hin & Hout).
  { cbn [timings w1]. lia. }
  { exact Hp0. }
  { exact Hp. }
  cbn [stdout launched timings w1] in Hloop, Hl, Hout.
  assert (Hts : ts' = ts).
  { apply list_eq. intros i. destruct (Nat.lt_ge_cases i n) as [Hi|Hi].
    - destruct (Hin i ltac:(lia)) as (t & -> & Ht).
      symmetry.
      destruct (lookup_lt_is_Some_2 ts i ltac:(lia)) as [t' Ht'].
      rewrite Ht'. f_equal.
      assert (Hc' : child_record H (command self) i = Some t').
      { eapply (Forall2_lookup_lr _ _ _ i i t' Hrec); [|exact Ht'].
        apply lookup_seq. lia. }
      congruence.
    - rewrite (lookup_ge_None_2 ts') by lia.
      now rewrite (lookup_ge_None_2 ts) by lia. }
  subst ts'.
  rewrite (bind_ok _ _ _ _ _ Hloop).
  set (tail_out := if mode_prl self then [PrWaiting; PrDone] else []).
  set (w2 := World (stdout w ++ [PrExecuting (command self) (runs self) (pause self);
                                 if mode_prl self then PrParallelMode else PrSequentialMode]
                      ++ out ++ tail_out)
                   (launched w ++ seq 0 n) ts).
  erewrite (bind_ok _ _ _ tt w2).
  2:{ unfold w2, tail_out. destruct (mode_prl self); unfold bind, print, ret;
      cbn [stdout launched timings]; rewrite <- ?app_assoc; cbn [app];
      rewrite ?app_nil_r; reflexivity. }
  destruct (results_processing_completed self w2 Hc)
    as (first & last & fastest & slowest & lo & hi & _ & _ & _ & _ & _ & _ & Hrun).
  rewrite Hrun. cbn [stdout launched timings w2].
  eexists. rewrite <- !app_assoc. reflexivity.
Qed.

Lemma init_allocates cmdl_params w self w' :
  __init__ H cmdl_params w = (Ok self, w') ->
  timings w' = repeat blank_timing (Z.to_nat (runs self)) /\
  launched w' = launched w.
Proof.
  intros Hi. split; [|rewrite <- (quiet_init H cmdl_params w); now rewrite Hi].
  unfold __init__, bind in Hi.
  destruct (except_init (parse_params H cmdl_params) w) as [[s|e|c] w1];
    try discriminate.
  destruct (negb (truthy (command s))); cbn in Hi; [discriminate|].
  now injection Hi as <- <-.
Qed.

(** A run whose configuration resolves and whose children all complete ends
    with status 0, with one record per iteration. *)
Lemma main_completes argv w self w1 ts :
  __init__ H (tail argv) w = (Ok self, w1) ->
  Forall2 (fun i t => child_record H (command self) i = Some t)
          (seq 0 (Z.to_nat (runs self))) ts ->
  completed self ts ->
  0 <= pause self -> pause_accepted H (pause self) ->
  fst (main H argv w) = 0 /\
  timings (snd (main H argv w)) = ts /\
  launched (snd (main H argv w)) = launched w ++ seq 0 (Z.to_nat (runs self)).
Proof.
  intros Hi Hrec Hc Hp0 Hp.
  destruct (init_allocates _ _ _ _ Hi) as [Halloc Hquiet].
  destruct (execute_completes self w1 ts Hrec Hc Hp0 Hp) as (out & Hex).
  { now rewrite Halloc, repeat_length. }
  unfold main. rewrite (bind_ok _ _ _ _ _ Hi), Hex. cbn [fst snd timings launched].
  now rewrite Hquiet.
Qed.

End Launching.

(** The file that asks for two runs, on the machine of the scenarios. *)
Example two_runs_complete :
  fst (main Scenario.machine ["sptest.py"; "two.json"]%string world0) = 0 /\
  launched (snd (main Scenario.machine ["sptest.py"; "two.json"]%string world0))
  = [0%nat; 1%nat] /\
  timings (snd (main Scenario.machine ["sptest.py"; "two.json"]%string world0))
  = [Timing 0 0 1000000 1000000; Timing 0 2000000 3000000 1000000] /\
  completed (Script false (PStr "true") 2 5)
            [Timing 0 0 1000000 1000000; Timing 0 2000000 3000000 1000000].
Proof. do 3 (split; [reflexivity|]). completed_scenario. Qed.

(** ** Claims about the resolution of the configuration *)

Section Resolution.

Context (H : host).

Local Open Scope string_scope.

(** C4 (as amended).  Let the option list the loop runs over be the options
    of the command line, or the entries of the file when one is named and
    decodes.  If it holds an entry for the number of runs or for the pause
    whose value is text that is not an integer, or an integer below 1 for
    the runs or below 0 for the pause, and every entry before it is
    accepted (in particular none before it asks for help), then the
    diagnostic is printed, the process ends with status 2 and no command is
    started. *)
Theorem rejected_number_is_fatal
        argv entries before opt value after least self w :
  effective_options H (tail argv) entries ->
  entries = (before ++ (opt, value) :: after)%list ->
  fst (configure H before w) = Ok self ->
  least_allowed (classify H opt) = Some least ->
  rejected_number H least value ->
  main H argv w
  = (2, World (stdout w ++ [PrValueError]) (launched w) (timings w)).
Proof.
  intros He -> Hb Hk Hv. apply main_exits.
  rewrite (init_effective _ _ _ _ He).
  apply init_from_options_raises.
  apply (configure_stops H before (opt, value) after w self);
    [exact Hb|now apply apply_option_rejected with (least := least)|discriminate].
Qed.

(** C5 (as amended).  When the command line holds options only, parses,
    and every option before the first help request is accepted, the usage
    text is printed and the process ends with status 0 without starting a
    command, whatever follows the help request. *)
Theorem help_request_reached argv opts before opt value after self w :
  getopt (tail argv) "c:n:w:ph" ["help"] = Ok (opts, []) ->
  opts = (before ++ (opt, value) :: after)%list ->
  fst (configure H (as_entries before) w) = Ok self ->
  classify H opt = KHelp ->
  main H argv w = (0, World (stdout w ++ [PrHelp]) (launched w) (timings w)).
Proof.
  intros Hg -> Hb Hk. apply main_exits.
  assert (He : effective_options H (tail argv)
                 (as_entries before ++ (opt, PStr value) :: as_entries after)).
  { exists (before ++ (opt, value) :: after)%list, []. split; [exact Hg|].
    split; [now destruct before|]. unfold as_entries. now rewrite map_app. }
  rewrite (init_effective _ _ _ _ He).
  apply init_from_options_exits.
  apply (configure_stops H _ (opt, PStr value) _ w self);
    [exact Hb|now apply apply_option_help|discriminate].
Qed.

End Resolution.

Local Open Scope string_scope.

(** The scenario of the specification: [-c 'echo a' -n 3] and a file that
    gives the command [echo b] and a pause of one second. *)
Example file_scenario :
  __init__ Scenario.machine ["-c"; "echo a"; "-n"; "3"; "cfg.json"] world0
  = (Ok (Script false (PStr "echo b") 8 1),
     World [] [] (repeat blank_timing 8)).
Proof. reflexivity. Qed.

(** C2, at the failing input.  Next to [-c 'echo a'], the file gives the
    command under the key COMMAND and holds the keys [-n] and [-p], neither
    of which is COMMAND, TIMES, SECONDS or PARALLEL in any case.  The named
    keys and the built-in defaults give the command of the file, 8 runs, a
    pause of 5 and the sequential mode; [__init__] resolves to 3 runs in
    parallel mode. *)
Theorem option_keys_of_file_are_obeyed :
  json_loads Scenario.machine Scenario.options_json
  = Some (PDict [("COMMAND", PStr "echo b"); ("-n", PInt 3); ("-p", PNone)]) /\
  filter (fun e => named_key Scenario.machine (fst e))
         [("COMMAND", PStr "echo b"); ("-n", PInt 3); ("-p", PNone)]
  = [("COMMAND", PStr "echo b")] /\
  configure Scenario.machine [("COMMAND", PStr "echo b")] world0
  = (Ok (Script false (PStr "echo b") 8 5), world0) /\
  __init__ Scenario.machine ["-c"; "echo a"; "options.json"] world0
  = (Ok (Script true (PStr "echo b") 3 5),
     World [] [] (repeat blank_timing 3)).
Proof. repeat split; reflexivity. Qed.

(** Keys are matched whatever their case. *)
Example file_keys_any_case :
  configure Scenario.machine
    [("Command", PStr "echo b"); ("seconds", PInt 1); ("PaRaLLeL", PNone)] world0
  = (Ok (Script true (PStr "echo b") 8 1), world0).
Proof. reflexivity. Qed.

(** The theorem at [-c true -n abc]. *)
Lemma rejected_number_is_fatal_witness :
  main Scenario.machine ["sptest.py"; "-c"; "true"; "-n"; "abc"] world0
  = (2, World [PrValueError] [] []).
Proof.
  apply (rejected_number_is_fatal Scenario.machine
           ["sptest.py"; "-c"; "true"; "-n"; "abc"]
           [("-c", PStr "true"); ("-n", PStr "abc")]
           [("-c", PStr "true")] "-n" (PStr "abc") [] 1
           (Script false (PStr "true") 8 5) world0).
  - exists [("-c", "true"); ("-n", "abc")], [].
    split; [reflexivity|]. split; [discriminate|reflexivity].
  - reflexivity.
  - reflexivity.
  - reflexivity.
  - exact I.
Defined.

(** C4, counterexample.  [-h -n 0] supplies a number of runs below 1 and
    ends with status 0 after the usage text; [-n 0 two.json] supplies it
    next to a file that decodes, and the two runs the file asks for are
    started. *)
Lemma rejected_number_not_always_fatal :
  main Scenario.machine ["sptest.py"; "-h"; "-n"; "0"] world0
  = (0, World [PrHelp] [] []) /\
  fst (main Scenario.machine ["sptest.py"; "-n"; "0"; "two.json"] world0) = 0 /\
  launched (snd (main Scenario.machine ["sptest.py"; "-n"; "0"; "two.json"] world0))
  = [0%nat; 1%nat].
Proof. repeat split; reflexivity. Qed.

(** The theorem at [-n 3 -h -n 0]: the rejected number follows the help
    request. *)
Lemma help_request_reached_witness :
  main Scenario.machine ["sptest.py"; "-n"; "3"; "-h"; "-n"; "0"] world0
  = (0, World [PrHelp] [] []).
Proof.
  apply (help_request_reached Scenario.machine
           ["sptest.py"; "-n"; "3"; "-h"; "-n"; "0"]
           [("-n", "3"); ("-h", ""); ("-n", "0")]
           [("-n", "3")] "-h" "" [("-n", "0")]
           (Script false (PStr "") 3 5) world0);
    reflexivity.
Defined.

(** C5, counterexample.  [-n 0 -h] holds a help request and ends with
    status 2 without the usage text; [-h two.json] holds one and the two
    runs the file asks for are started. *)
Lemma help_request_not_always_reached :
  main Scenario.machine ["sptest.py"; "-n"; "0"; "-h"] world0
  = (2, World [PrValueError] [] []) /\
  fst (main Scenario.machine ["sptest.py"; "-h"; "two.json"] world0) = 0 /\
  launched (snd (main Scenario.machine ["sptest.py"; "-h"; "two.json"] world0))
  = [0%nat; 1%nat].
Proof. repeat split; reflexivity. Qed.

(** C3, at the failing input.  A file whose number of runs is [null] is a
    configuration error, and the process ends with status 1 through the
    handler of the main block, not with status 2. *)
Theorem null_number_exit_status :
  json_loads Scenario.machine Scenario.null_json
  = Some (PDict [("COMMAND", PStr "true"); ("TIMES", PNone)]) /\
  main Scenario.machine ["sptest.py"; "null.json"] world0
  = (1, World [PrUnhandled TypeError] [] []).
Proof. split; reflexivity. Qed.

(** C10, at the failing input.  The key [-h] of a file matches none of
    COMMAND, TIMES, SECONDS and PARALLEL, yet it is not ignored: the usage
    text is printed and the process ends with status 0 instead of running
    the command of the file. *)
Theorem help_key_of_file_is_obeyed :
  Forall (fun name => String.eqb (str_upper Scenario.machine "-h") name = false)
         ["COMMAND"; "TIMES"; "SECONDS"; "PARALLEL"] /\
  json_loads Scenario.machine Scenario.help_json
  = Some (PDict [("COMMAND", PStr "echo b"); ("-h", PInt 0)]) /\
  main Scenario.machine ["sptest.py"; "help.json"] world0
  = (0, World [PrHelp] [] []).
Proof. split; [repeat constructor|split; reflexivity]. Qed.

(** The other option spellings are obeyed as keys of a file too. *)
Example option_spellings_as_keys :
  configure Scenario.machine
    [("-c", PStr "echo x"); ("-n", PInt 2); ("-w", PInt 0); ("-p", PNone)] world0
  = (Ok (Script true (PStr "echo x") 2 0), world0).
Proof. reflexivity. Qed.

Local Close Scope string_scope.

(** * Further properties of the code *)

(** ** Statistics *)

(** X21.  For a completed run set the reported total span is at least the
    reported slowest duration. *)
Theorem total_span_covers_slowest self w :
  completed self (timings w) ->
  exists total slowest,
    reported total_line (report self w) = [total] /\
    reported slowest_line (report self w) = [slowest] /\
    slowest <= total.
Proof.
  intros Hc.
  destruct (report_completed self w Hc)
    as (first & last & fastest & slowest & lo & hi
        & Hfirst & Hlast & _ & Hslow & _ & _ & _ & Hrep).
  exists (last - first), slowest. rewrite Hrep. unfold reported.
  do 2 (split; [cbn; now destruct (_ =? 0)|]).
  destruct Hslow as [Hin _]. apply in_map_iff in Hin as (t & <- & Ht).
  pose proof (proj1 (List.Forall_forall _ _) (cr_each _ _ Hc) t Ht) as [_ _ Htime].
  destruct Hfirst as [_ Hf], Hlast as [_ Hl].
  rewrite List.Forall_forall in Hf, Hl.
  pose proof (Hf (start t) (in_map start _ t Ht)).
  pose proof (Hl (finish t) (in_map finish _ t Ht)). lia.
Qed.

(** The theorem at three overlapping runs. *)
Lemma total_span_covers_slowest_witness :
  exists total slowest,
    reported total_line
      (report (Scenario.script 3) (Scenario.after_runs Scenario.three_runs))
    = [total] /\
    reported slowest_line
      (report (Scenario.script 3) (Scenario.after_runs Scenario.three_runs))
    = [slowest] /\
    slowest <= total.
Proof.
  apply (total_span_covers_slowest (Scenario.script 3)
           (Scenario.after_runs Scenario.three_runs)).
  completed_scenario.
Defined.

(** X22.  After a single completed run the total span, the fastest, the
    slowest, the average and the median are all the duration of that run, and
    the warning counts one failure when its exit status is not zero. *)
Theorem single_run_report self w t :
  timings w = [t] ->
  completed self (timings w) ->
  fst (results_processing self w) = Ok tt /\
  report self w
  = [PrTotal (time t); PrFastest (time t); PrSlowest (time t);
     PrAverage (time t); PrMedian (time t)]
    ++ (if e_code t =? 0 then [] else [PrAttention 1]).
Proof.
  intros Hw Hc.
  destruct (report_completed self w Hc)
    as (first & last & fastest & slowest & lo & hi
        & Hfirst & Hlast & Hfast & Hslow & Hlo & Hhi & Hok & Hrep).
  pose proof (cr_length _ _ Hc) as Hlen.
  pose proof (cr_each _ _ Hc) as Heach.
  rewrite Hw in *. cbn [length] in Hlen.
  inversion Heach as [|? ? [_ _ Htime] _]; subst.
  split; [exact Hok|]. rewrite Hrep. rewrite <- Hlen in *.
  cbn [map] in *.
  destruct Hfirst as [[<-|[]] _], Hlast as [[<-|[]] _],
           Hfast as [[<-|[]] _], Hslow as [[<-|[]] _].
  change (merge_sort Z.le [time t]) with [time t] in Hlo, Hhi.
  change (Z.to_nat (Z.of_nat 1 / 2)) with 0%nat in Hlo.
  change (Z.to_nat (Z.of_nat 1 - 1 - Z.of_nat 1 / 2)) with 0%nat in Hhi.
  cbn in Hlo, Hhi. injection Hlo as <-. injection Hhi as <-.
  unfold sum_list. cbn [fold_right List.filter failed length].
  replace (time t + 0) with (time t * Z.of_nat 1) by (cbn; lia).
  rewrite divide_nearest_exact by (cbn; lia).
  replace (time t + time t) with (time t * 2) by lia.
  rewrite divide_nearest_exact by lia.
  rewrite <- Htime. unfold failed.
  destruct (e_code t =? 0); reflexivity.
Qed.

(** The theorem at one run of 700 microseconds. *)
Lemma single_run_report_witness :
  fst (results_processing (Scenario.script 1)
         (Scenario.after_runs Scenario.one_run)) = Ok tt /\
  report (Scenario.script 1) (Scenario.after_runs Scenario.one_run)
  = [PrTotal 700; PrFastest 700; PrSlowest 700; PrAverage 700; PrMedian 700].
Proof.
  apply (single_run_report (Scenario.script 1)
           (Scenario.after_runs Scenario.one_run) (Timing 0 0 700 700)).
  - reflexivity.
  - completed_scenario.
Defined.

Lemma back_to_back_sum last : forall ts from,
  back_to_back from ts ->
  Forall completed_run ts ->
  Forall (fun t => finish t <= last) ts ->
  from <= last ->
  sum_list (map time ts) <= last - from.
Proof.
  induction ts as [|t ts IH]; intros from Hb Hc Hl Hfrom;
    cbn [map sum_list fold_right].
  - lia.
  - destruct Hb as (H1 & H2 & Hb).
    inversion Hc as [|? ? [_ _ Htime] Hc']; subst.
    inversion Hl as [|? ? Hlt Hl']; subst.
    specialize (IH (finish t) Hb Hc' Hl' Hlt). unfold sum_list in IH. lia.
Qed.

(** X23.  When the runs of a completed run set follow one another on a clock
    that does not go back, as in sequential mode, the reported total span is
    at least the sum of the durations. *)
Theorem sequential_span_covers_sum self w :
  completed self (timings w) ->
  back_to_back 0 (timings w) ->
  exists total,
    reported total_line (report self w) = [total] /\
    sum_list (map time (timings w)) <= total.
Proof.
  intros Hc Hb.
  destruct (report_completed self w Hc)
    as (first & last & fastest & slowest & lo & hi
        & Hfirst & Hlast & _ & _ & _ & _ & _ & Hrep).
  exists (last - first). rewrite Hrep. unfold reported.
  split; [cbn; now destruct (_ =? 0)|].
  destruct Hfirst as [Hfin Hf], Hlast as [Hlin Hl].
  assert (Hl' : Forall (fun t => finish t <= last) (timings w)).
  { rewrite List.Forall_forall in Hl. apply List.Forall_forall.
    intros t Ht. apply Hl. now apply in_map. }
  apply back_to_back_sum; [|apply (cr_each _ _ Hc)|exact Hl'|].
  - destruct (timings w) as [|t ts]; [exact I|].
    destruct Hb as (_ & H2 & Hb). inversion Hf; subst.
    repeat split; assumption.
  - apply in_map_iff in Hfin as (t & <- & Ht).
    rewrite List.Forall_forall in Hl.
    pose proof (Hl (finish t) (in_map finish _ t Ht)).
    assert (Hst : start t <= finish t).
    { clear - Hb Ht. revert Hb Ht. generalize 0.
      induction (timings w) as [|t0 ts IH]; intros from Hb Ht; [destruct Ht|].
      destruct Hb as (_ & H2 & Hb). destruct Ht as [->|Ht]; [exact H2|].
      now apply (IH (finish t0)). }
    lia.
Qed.

(** The theorem at two runs, the second one a second after the first. *)
Lemma sequential_span_covers_sum_witness :
  exists total,
    reported total_line
      (report (Scenario.script 2) (Scenario.after_runs Scenario.two_runs))
    = [total] /\
    sum_list (map time (timings (Scenario.after_runs Scenario.two_runs))) <= total.
Proof.
  apply (sequential_span_covers_sum (Scenario.script 2)
           (Scenario.after_runs Scenario.two_runs)).
  - completed_scenario.
  - cbn. lia.
Defined.

(** ** Resolution of the configuration *)

Section MoreResolution.

Context (H : host).

Local Open Scope string_scope.

Lemma load_file_ok filename w entries w' :
  load_file H filename w = (Ok entries, w') -> w' = w.
Proof.
  unfold load_file, bind, print, exit, lift.
  destruct (isfile H filename); cbn [negb]; [|discriminate].
  destruct (read_file H filename) as [json_text|]; [|discriminate].
  destruct (json_loads H json_text) as [json_data|]; [|discriminate].
  now intros [= _ <-].
Qed.

Lemma parse_params_ok cmdl_params w self w' :
  parse_params H cmdl_params w = (Ok self, w') -> w' = w /\ admissible self.
Proof.
  unfold parse_params, bind, lift.
  destruct (getopt cmdl_params "c:n:w:ph" ["help"]) as [[opts args]| |];
    [|discriminate..].
  assert (Hconf : forall entries w0,
             configure H entries w0 = (Ok self, w') -> w' = w0 /\ admissible self).
  { intros entries w0 Hc.
    assert (Hf : fst (configure H entries w0) = Ok self) by now rewrite Hc.
    apply configure_accepted in Hf as [Hf Ha]. rewrite Hf in Hc.
    now injection Hc as <-. }
  destruct args as [|filename rest].
  - destruct opts; [discriminate|]. apply Hconf.
  - assert (Hload : match load_file H filename w with
                    | (Ok a, w1) => configure H a w1
                    | (Raise e, w1) => (Raise e, w1)
                    | (Exit c, w1) => (Exit c, w1)
                    end = (Ok self, w') -> w' = w /\ admissible self).
    { destruct (load_file H filename w) as [[entries| |] w1] eqn:Hl;
        [|discriminate..].
      apply load_file_ok in Hl as ->. apply Hconf. }
    destruct opts; exact Hload.
Qed.

Lemma init_postconditions cmdl_params w self w' :
  __init__ H cmdl_params w = (Ok self, w') ->
  1 <= runs self /\ 0 <= pause self /\ truthy (command self) = true /\
  stdout w' = stdout w /\ launched w' = launched w /\
  timings w' = repeat blank_timing (Z.to_nat (runs self)).
Proof.
  unfold __init__, bind, except_init.
  destruct (parse_params H cmdl_params w) as [[s|e|c] w1] eqn:Hp.
  - apply parse_params_ok in Hp as [-> [Hr Hpa]].
    destruct (truthy (command s)) eqn:Ht; cbn [negb]; [|discriminate].
    unfold ret, put_timings. intros [= <- <-]. cbn [stdout launched timings].
    repeat split; auto.
  - destruct e; discriminate.
  - discriminate.
Qed.

(** X1.  A configuration that [__init__] returns has at least one run, a
    pause that is not negative and a command that is not empty; nothing has
    been printed, no command has been started, and there is one blank record
    per run. *)
Theorem resolved_configuration_is_valid cmdl_params w self w' :
  __init__ H cmdl_params w = (Ok self, w') ->
  1 <= runs self /\ 0 <= pause self /\ truthy (command self) = true /\
  stdout w' = stdout w /\ launched w' = launched w /\
  timings w' = repeat blank_timing (Z.to_nat (runs self)).
Proof. apply init_postconditions. Qed.

(** X9.  Once [getopt] leaves a positional argument, [__init__] behaves as
    if the command line were that file name alone: the options before it and
    the arguments after it change nothing, also when the file is missing or
    cannot be decoded. *)
Theorem named_file_alone_matters cmdl_params opts filename rest w :
  getopt cmdl_params "c:n:w:ph" ["help"] = Ok (opts, filename :: rest) ->
  __init__ H cmdl_params w = __init__ H ["--"; filename] w.
Proof.
  intros Hg.
  assert (Hg' : getopt ["--"; filename] "c:n:w:ph" ["help"] = Ok ([], [filename]))
    by reflexivity.
  unfold __init__, bind, except_init, parse_params, bind, lift.
  rewrite Hg, Hg'. now destruct opts.
Qed.

(** X10.  An entry whose key is none of the option spellings and none of
    the four key names has no effect: the loop gives the same result, the
    same errors included, as without the entry. *)
Theorem unknown_entry_is_skipped before opt value after w :
  classify H opt = KUnknown ->
  configure H (before ++ (opt, value) :: after) w
  = configure H (before ++ after) w.
Proof.
  intros Hk. unfold configure. rewrite !for_each_app. unfold bind.
  destruct (for_each before (apply_option H) defaults w) as [[s| |] w1] eqn:Hb;
    [|reflexivity..].
  cbn [for_each]. unfold bind.
  rewrite apply_option_unknown; [reflexivity|exact Hk|].
  apply for_each_accepted in Hb as (_ & Ha & _). apply Ha.
  unfold admissible, defaults, _DEFAULT_RUNS, _DEFAULT_PAUSE. cbn. lia.
Qed.

Lemma apply_option_sets self opt value w self' w' :
  apply_option H self (opt, value) w = (Ok self', w') ->
  (classify H opt = KRuns -> py_int H value = Ok (runs self')) /\
  (classify H opt = KPause -> py_int H value = Ok (pause self')) /\
  (classify H opt = KCommand -> command self' = value) /\
  (mode_prl self' = true <-> mode_prl self = true \/ classify H opt = KParallel).
Proof.
  unfold apply_option, classify, bind, lift, ret, raise, exit, print.
  destruct (is_opt H opt "-c" "COMMAND");
    [|destruct (is_opt H opt "-n" "TIMES");
      [|destruct (is_opt H opt "-w" "SECONDS");
        [|destruct (is_opt H opt "-p" "PARALLEL");
          [|destruct (String.eqb opt "-h" || String.eqb opt "--help")%bool]]]];
    try destruct (py_int H value) as [n| |]; try discriminate;
    cbn [set_command set_runs set_pause set_mode_prl runs pause mode_prl command];
    match goal with
    | |- context [((?a <? 1) || (?b <? 0))%Z] =>
        destruct (a <? 1)%Z; destruct (b <? 0)%Z; cbn [orb]; try discriminate
    end;
    intros [= <- <-]; cbn [runs pause mode_prl command];
    repeat split; try discriminate; try reflexivity; try tauto;
    intros [?|?]; try discriminate; auto.
Qed.

Lemma for_each_keeps_command (entries : list (string * pyval)) :
  forall self w self' w',
  for_each entries (apply_option H) self w = (Ok self', w') ->
  Forall (fun e => classify H (fst e) <> KCommand) entries ->
  command self' = command self.
Proof.
  induction entries as [|e entries IH]; intros self w self' w' Hrun Hall.
  - cbn [for_each] in Hrun. unfold ret in Hrun. now injection Hrun as <- <-.
  - cbn [for_each] in Hrun. unfold bind in Hrun.
    destruct (apply_option H self e w) as [[s1| |] w1] eqn:He; try discriminate.
    apply apply_option_accepted in He as (_ & _ & _ & _ & _ & Hc).
    inversion Hall; subst. rewrite (IH _ _ _ _ Hrun) by assumption. auto.
Qed.

(** X11.  In a configuration the loop returns, the number of runs, the
    pause and the command are those of the last entry of their kind: an
    entry decides when no entry of the same kind follows it. *)
Theorem last_entry_decides before opt value after w self w' :
  configure H (before ++ (opt, value) :: after) w = (Ok self, w') ->
  (classify H opt = KRuns ->
   Forall (fun e => classify H (fst e) <> KRuns) after ->
   py_int H value = Ok (runs self)) /\
  (classify H opt = KPause ->
   Forall (fun e => classify H (fst e) <> KPause) after ->
   py_int H value = Ok (pause self)) /\
  (classify H opt = KCommand ->
   Forall (fun e => classify H (fst e) <> KCommand) after ->
   command self = value).
Proof.
  unfold configure. rewrite for_each_app. unfold bind.
  destruct (for_each before (apply_option H) defaults w) as [[s0| |] w0];
    [|discriminate..].
  cbn [for_each]. unfold bind.
  destruct (apply_option H s0 (opt, value) w0) as [[s1| |] w1] eqn:He;
    [|discriminate..].
  intros Hafter.
  apply apply_option_sets in He as (Hr & Hp & Hc & _).
  pose proof (for_each_accepted H after _ _ _ _ Hafter) as (_ & _ & Hr' & Hp' & _).
  pose proof (for_each_keeps_command after _ _ _ _ Hafter) as Hc'.
  repeat split; intros Hk Hall.
  - rewrite Hr'; auto.
  - rewrite Hp'; auto.
  - rewrite Hc'; auto.
Qed.

Lemma for_each_mode (entries : list (string * pyval)) :
  forall self w self' w',
  for_each entries (apply_option H) self w = (Ok self', w') ->
  (mode_prl self' = true <->
   mode_prl self = true \/
   Exists (fun e => classify H (fst e) = KParallel) entries).
Proof.
  induction entries as [|[opt value] entries IH]; intros self w self' w' Hrun.
  - cbn [for_each] in Hrun. unfold ret in Hrun. injection Hrun as <- <-.
    split; [now left|]. intros [?|Hex]; [assumption|inversion Hex].
  - cbn [for_each] in Hrun. unfold bind in Hrun.
    destruct (apply_option H self (opt, value) w) as [[s1| |] w1] eqn:He;
      try discriminate.
    apply apply_option_sets in He as (_ & _ & _ & Hm).
    rewrite (IH _ _ _ _ Hrun), Hm, Exists_cons. cbn [fst]. tauto.
Qed.

(** X12.  A configuration the loop returns is in parallel mode exactly when
    one of the entries is the parallel flag or key, whatever its value. *)
Theorem parallel_mode_iff_entry entries w self w' :
  configure H entries w = (Ok self, w') ->
  (mode_prl self = true <->
   Exists (fun e => classify H (fst e) = KParallel) entries).
Proof.
  intros Hc. unfold configure in Hc. rewrite (for_each_mode _ _ _ _ _ Hc).
  cbn [defaults mode_prl]. split; [intros [?|?]; [discriminate|assumption]|].
  now right.
Qed.

Lemma classify_named opt :
  option_spelling opt = false ->
  classify H opt
  = if String.eqb (str_upper H opt) "COMMAND" then KCommand
    else if String.eqb (str_upper H opt) "TIMES" then KRuns
    else if String.eqb (str_upper H opt) "SECONDS" then KPause
    else if String.eqb (str_upper H opt) "PARALLEL" then KParallel
    else KUnknown.
Proof.
  unfold option_spelling, classify, is_opt. cbn [existsb].
  destruct (String.eqb opt "-c"); [discriminate|].
  destruct (String.eqb opt "-n"); [discriminate|].
  destruct (String.eqb opt "-w"); [discriminate|].
  destruct (String.eqb opt "-p"); [discriminate|].
  destruct (String.eqb opt "-h"); [discriminate|].
  destruct (String.eqb opt "--help"); [discriminate|].
  reflexivity.
Qed.

(** A key that is no option spelling is of the kind of the name it has in
    upper case. *)
Lemma classify_by_name opt :
  option_spelling opt = false ->
  (String.eqb (str_upper H opt) "COMMAND" = true <-> classify H opt = KCommand) /\
  (String.eqb (str_upper H opt) "TIMES" = true <-> classify H opt = KRuns) /\
  (String.eqb (str_upper H opt) "SECONDS" = true <-> classify H opt = KPause) /\
  (String.eqb (str_upper H opt) "PARALLEL" = true <-> classify H opt = KParallel).
Proof.
  intros Hs. rewrite (classify_named opt Hs).
  destruct (String.eqb_spec (str_upper H opt) "COMMAND") as [E1|_];
    destruct (String.eqb_spec (str_upper H opt) "TIMES") as [E2|_];
    destruct (String.eqb_spec (str_upper H opt) "SECONDS") as [E3|_];
    destruct (String.eqb_spec (str_upper H opt) "PARALLEL") as [E4|_];
    try congruence;
    repeat split; intros; congruence.
Qed.

(** The loop over entries none of which is spelled like an option, from any
    admissible attributes. *)
Lemma for_each_file_values (entries : list (string * pyval)) :
  forall self w self' w',
  for_each entries (apply_option H) self w = (Ok self', w') ->
  Forall (fun e => option_spelling (fst e) = false) entries ->
  command self'
  = match file_value H "COMMAND" entries with
    | Some value => value
    | None => command self
    end /\
  match file_value H "TIMES" entries with
  | Some value => py_int H value = Ok (runs self')
  | None => runs self' = runs self
  end /\
  match file_value H "SECONDS" entries with
  | Some value => py_int H value = Ok (pause self')
  | None => pause self' = pause self
  end /\
  mode_prl self'
  = match file_value H "PARALLEL" entries with
    | Some _ => true
    | None => mode_prl self
    end.
Proof.
  induction entries as [|[key value] entries IH]; intros self w self' w' Hrun Hall.
  - cbn [for_each] in Hrun. unfold ret in Hrun. injection Hrun as <- <-.
    cbn [file_value]. repeat split; reflexivity.
  - cbn [for_each] in Hrun. unfold bind in Hrun.
    destruct (apply_option H self (key, value) w) as [[s1| |] w1] eqn:He;
      try discriminate.
    inversion Hall as [|? ? Hkey Hrest]; subst. cbn [fst] in Hkey.
    destruct (classify_by_name key Hkey) as (Kc & Kr & Kp & Km).
    pose proof (apply_option_sets _ _ _ _ _ _ He) as (Sr & Sp & Sc & Sm).
    apply apply_option_accepted in He as (_ & _ & Ar & Ap & Am & Ac).
    cbn [fst] in Ar, Ap, Am, Ac.
    destruct (IH _ _ _ _ Hrun Hrest) as (Ic & Ir & Ip & Im).
    cbn [file_value]. repeat split.
    + destruct (file_value H "COMMAND" entries); [exact Ic|]. rewrite Ic.
      destruct (String.eqb (str_upper H key) "COMMAND") eqn:Hk.
      * apply Sc, Kc. reflexivity.
      * apply Ac. intros Hc. apply Kc in Hc. congruence.
    + destruct (file_value H "TIMES" entries); [exact Ir|]. rewrite Ir.
      destruct (String.eqb (str_upper H key) "TIMES") eqn:Hk.
      * apply Sr, Kr. reflexivity.
      * apply Ar. intros Hc. apply Kr in Hc. congruence.
    + destruct (file_value H "SECONDS" entries); [exact Ip|]. rewrite Ip.
      destruct (String.eqb (str_upper H key) "SECONDS") eqn:Hk.
      * apply Sp, Kp. reflexivity.
      * apply Ap. intros Hc. apply Kp in Hc. congruence.
    + destruct (file_value H "PARALLEL" entries); [exact Im|]. rewrite Im.
      destruct (String.eqb (str_upper H key) "PARALLEL") eqn:Hk.
      * apply Sm. right. apply Km. reflexivity.
      * apply Am. intros Hc. apply Km in Hc. congruence.
Qed.

(** X24.  When a file is named after the options, exists, can be read and
    decodes to an object none of whose keys is spelled like an option, the
    configuration [__init__] returns is the one of the file and of the
    built-in defaults, whatever the options of the command line: the command
    is the value under COMMAND, the number of runs and the pause are the
    integers of the values under TIMES and SECONDS, or 8 and 5 without such
    a key, and the mode is parallel exactly when there is a key PARALLEL;
    the keys are taken in any case and the last one of a name counts. *)
Theorem file_keys_decide_configuration
        cmdl_params opts filename rest json_text entries self w w' :
  getopt cmdl_params "c:n:w:ph" ["help"] = Ok (opts, filename :: rest) ->
  isfile H filename = true ->
  read_file H filename = Some json_text ->
  json_loads H json_text = Some (PDict entries) ->
  Forall (fun e => option_spelling (fst e) = false) entries ->
  __init__ H cmdl_params w = (Ok self, w') ->
  file_value H "COMMAND" entries = Some (command self) /\
  match file_value H "TIMES" entries with
  | Some value => py_int H value = Ok (runs self)
  | None => runs self = _DEFAULT_RUNS
  end /\
  match file_value H "SECONDS" entries with
  | Some value => py_int H value = Ok (pause self)
  | None => pause self = _DEFAULT_PAUSE
  end /\
  mode_prl self
  = match file_value H "PARALLEL" entries with
    | Some _ => true
    | None => false
    end.
Proof.
  intros Hg Hf Hr Hj Hall Hinit.
  assert (He : effective_options H cmdl_params entries).
  { exists opts, (filename :: rest). split; [exact Hg|].
    split; [exact Hf|]. now exists json_text. }
  pose proof (init_postconditions _ _ _ _ Hinit) as (_ & _ & Hcmd & _).
  rewrite (init_effective _ _ _ _ He) in Hinit.
  unfold init_from_options, bind, except_init, configure in Hinit.
  destruct (for_each entries (apply_option H) defaults w) as [[s|e|c] w1] eqn:Hrun.
  - destruct (negb (truthy (command s))); cbn in Hinit; [discriminate|].
    injection Hinit as <- _.
    destruct (for_each_file_values _ _ _ _ _ Hrun Hall) as (Ic & Ir & Ip & Im).
    cbn [defaults command runs pause mode_prl] in Ic, Ir, Ip, Im.
    repeat split; try assumption.
    destruct (file_value H "COMMAND" entries); [now rewrite Ic|].
    rewrite Ic in Hcmd. discriminate.
  - destruct e; cbn in Hinit; discriminate.
  - discriminate.
Qed.

End MoreResolution.

Local Open Scope string_scope.

(** The theorem at the scenario of the specification. *)
Lemma resolved_configuration_is_valid_witness :
  1 <= 8 /\ 0 <= 1 /\ truthy (PStr "echo b") = true /\
  stdout (World [] [] (repeat blank_timing 8)) = stdout world0 /\
  launched (World [] [] (repeat blank_timing 8)) = launched world0 /\
  timings (World [] [] (repeat blank_timing 8))
  = repeat blank_timing (Z.to_nat 8).
Proof.
  apply (resolved_configuration_is_valid Scenario.machine
           ["-c"; "echo a"; "-n"; "3"; "cfg.json"] world0
           (Script false (PStr "echo b") 8 1)
           (World [] [] (repeat blank_timing 8))).
  reflexivity.
Defined.

(** The theorem at [-h -n 0 nofile.json -x]: the file is looked for. *)
Lemma named_file_alone_matters_witness :
  __init__ Scenario.machine ["-h"; "-n"; "0"; "nofile.json"; "-x"] world0
  = __init__ Scenario.machine ["--"; "nofile.json"] world0.
Proof.
  apply (named_file_alone_matters Scenario.machine
           ["-h"; "-n"; "0"; "nofile.json"; "-x"]
           [("-h", ""); ("-n", "0")] "nofile.json" ["-x"] world0).
  reflexivity.
Defined.

(** The theorem at a file with a key [COMMENT]. *)
Lemma unknown_entry_is_skipped_witness :
  configure Scenario.machine
    ([("COMMAND", PStr "echo b")] ++ ("COMMENT", PStr "nightly")
       :: [("TIMES", PInt 2)]) world0
  = configure Scenario.machine
      ([("COMMAND", PStr "echo b")] ++ [("TIMES", PInt 2)]) world0.
Proof.
  apply (unknown_entry_is_skipped Scenario.machine
           [("COMMAND", PStr "echo b")] "COMMENT" (PStr "nightly")
           [("TIMES", PInt 2)] world0).
  reflexivity.
Defined.

(** The theorem at [-n 3 -n 4 -c x]: four runs. *)
Lemma last_entry_decides_witness :
  py_int Scenario.machine (PStr "4") = Ok (runs (Script false (PStr "x") 4 5)).
Proof.
  refine (proj1 (last_entry_decides Scenario.machine
                   [("-n", PStr "3")] "-n" (PStr "4") [("-c", PStr "x")] world0
                   (Script false (PStr "x") 4 5) world0 _) _ _).
  - reflexivity.
  - reflexivity.
  - repeat constructor; discriminate.
Defined.

(** The theorem at a file whose key [parallel] holds [false]. *)
Lemma parallel_mode_iff_entry_witness :
  true = true <->
  Exists (fun e => classify Scenario.machine (fst e) = KParallel)
         [("COMMAND", PStr "x"); ("parallel", PBool false)].
Proof.
  apply (parallel_mode_iff_entry Scenario.machine
           [("COMMAND", PStr "x"); ("parallel", PBool false)] world0
           (Script true (PStr "x") 8 5) world0).
  reflexivity.
Defined.

(** The theorem at [-c 'echo a' -n 4 -w 7 mixed.json]: the file gives
    [echo b], three runs as text, a pause of one second and the parallel
    mode, under keys in mixed case. *)
Lemma file_keys_decide_configuration_witness :
  file_value Scenario.machine "COMMAND"
    [("Command", PStr "echo b"); ("times", PStr "3"); ("SECONDS", PInt 1);
     ("Parallel", PBool false)]
  = Some (command (Script true (PStr "echo b") 3 1)) /\
  py_int Scenario.machine (PStr "3")
  = Ok (runs (Script true (PStr "echo b") 3 1)) /\
  py_int Scenario.machine (PInt 1)
  = Ok (pause (Script true (PStr "echo b") 3 1)) /\
  mode_prl (Script true (PStr "echo b") 3 1) = true.
Proof.
  apply (file_keys_decide_configuration Scenario.machine
           ["-c"; "echo a"; "-n"; "4"; "-w"; "7"; "mixed.json"]
           [("-c", "echo a"); ("-n", "4"); ("-w", "7")] "mixed.json" []
           Scenario.mixed_json
           [("Command", PStr "echo b"); ("times", PStr "3"); ("SECONDS", PInt 1);
            ("Parallel", PBool false)]
           (Script true (PStr "echo b") 3 1) world0
           (World [] [] (repeat blank_timing 3))).
  - reflexivity.
  - reflexivity.
  - reflexivity.
  - reflexivity.
  - repeat constructor.
  - reflexivity.
Defined.

Local Close Scope string_scope.

(** ** The records and the launches of a run *)

Lemma quiet_get_timings : launches_nothing get_timings.
Proof. intros w. reflexivity. Qed.

Lemma quiet_set_slot i f : launches_nothing (set_slot i f).
Proof.
  unfold set_slot. apply quiet_bind; [apply quiet_get_timings|].
  intros ts. destruct (ts !! i); [apply quiet_put_timings|apply quiet_raise].
Qed.

Lemma quiet_sleep H secs : launches_nothing (sleep H secs).
Proof.
  intros w. unfold sleep.
  destruct (_ || _); [reflexivity|].
  destruct (_ <? _); [reflexivity|].
  destruct (clock_nanosleep H w secs); reflexivity.
Qed.

Lemma quiet_accumulate acc t : launches_nothing (accumulate acc t).
Proof.
  unfold accumulate. apply quiet_bind; [apply quiet_lift|intros; apply quiet_ret].
Qed.

Lemma quiet_results_processing self : launches_nothing (results_processing self).
Proof.
  unfold results_processing.
  repeat first
    [ apply quiet_get_timings | apply quiet_lift | apply quiet_print
    | apply quiet_ret
    | apply quiet_for_each; intros; apply quiet_accumulate
    | apply quiet_bind; [|intros]
    | match goal with |- launches_nothing (if ?b then _ else _) => destruct b end ].
Qed.

Section Records.

Context (H : host).

(** What follows the launch in [run_command]. *)
Lemma run_command_launches self i w :
  launched (snd (run_command H self i w)) = launched w ++ [i].
Proof.
  unfold run_command.
  set (rest := match subprocess_run H (command self) i with
               | Some _ => _ | None => _ end).
  assert (Hq : launches_nothing rest).
  { unfold rest. destruct (subprocess_run H (command self) i) as [[[rc st] fi]|];
      [|apply quiet_raise].
    repeat first [ apply quiet_set_slot | apply quiet_lift
                 | apply quiet_bind; [|intros] ]. }
  unfold bind, launch.
  exact (Hq (World (stdout w) (launched w ++ [i]) (timings w))).
Qed.

Lemma thread_start_launches self i w :
  thread_start H self i w = (Ok tt, snd (thread_start H self i w)) /\
  launched (snd (thread_start H self i w)) = launched w ++ [i].
Proof.
  pose proof (run_command_launches self i w) as Hl. unfold thread_start.
  destruct (run_command H self i w) as [[[]| |] w']; cbn [snd] in *; auto.
Qed.

(** One round of the loop starts the command of its iteration and no
    other, however it ends. *)
Lemma iteration_body_launches self i w :
  launched (snd (iteration_body H self tt i w)) = launched w ++ [i].
Proof.
  unfold iteration_body.
  set (w1 := World (stdout w ++ [PrStarting (Z.of_nat i + 1)]) (launched w) (timings w)).
  rewrite (bind_ok (print _) _ w tt w1) by reflexivity.
  assert (Hmid : forall (m : M unit) (k : M unit),
             launched (snd (m w1)) = launched w ++ [i] ->
             launches_nothing k ->
             launched (snd (bind m (fun _ => k) w1)) = launched w ++ [i]).
  { intros m k Hm Hk. unfold bind.
    destruct (m w1) as [[[]| |] w2]; cbn [snd] in *; [|assumption..].
    now rewrite Hk. }
  apply Hmid.
  - destruct (mode_prl self).
    + destruct (thread_start_launches self i w1) as [Hok Hl].
      unfold bind. rewrite Hok. cbn [snd]. exact Hl.
    + pose proof (run_command_launches self i w1) as Hl.
      unfold bind. destruct (run_command H self i w1) as [[[]| |] w2];
        cbn [snd] in *; [|assumption..].
      unfold get_timings, lift.
      destruct (getitem (timings w2) (Z.of_nat i)); cbn [snd]; assumption.
  - destruct (_ <? _); [apply quiet_sleep|apply quiet_ret].
Qed.

(** The loop starts the iterations in order and stops at the first round
    that does not end normally. *)
Lemma launching_loop_order self m : forall k w,
  exists j, (j <= m)%nat /\
    launched (snd (for_each (seq k m) (iteration_body H self) tt w))
    = launched w ++ seq k j /\
    (forall u, fst (for_each (seq k m) (iteration_body H self) tt w) = Ok u ->
     j = m).
Proof.
  induction m as [|m IH]; intros k w.
  - exists 0%nat. cbn. rewrite app_nil_r. repeat split; auto.
  - cbn [seq for_each]. unfold bind.
    pose proof (iteration_body_launches self k w) as Hl.
    destruct (iteration_body H self tt k w) as [[[]|e|c] w1] eqn:Hb;
      cbn [snd] in Hl.
    + destruct (IH (S k) w1) as (j & Hj & Hlaunched & Hall).
      exists (S j). split; [lia|]. rewrite Hlaunched, Hl, <- app_assoc.
      split; [reflexivity|]. intros u Hu. f_equal. eauto.
    + exists 1%nat. cbn [fst snd seq]. repeat split; auto; [lia|discriminate].
    + exists 1%nat. cbn [fst snd seq]. repeat split; auto; [lia|discriminate].
Qed.

Lemma launched_bind_quiet {A B} (m : M A) (k : A -> M B) w :
  (forall a, launches_nothing (k a)) ->
  launched (snd (bind m k w)) = launched (snd (m w)).
Proof.
  intros Hk. unfold bind.
  destruct (m w) as [[a| |] w']; cbn [snd]; [apply (Hk a)|reflexivity..].
Qed.

Lemma bind_ok_first {A B} (m : M A) (k : A -> M B) w u :
  fst (bind m k w) = Ok u -> exists a, fst (m w) = Ok a.
Proof.
  unfold bind. destruct (m w) as [[a| |] w']; cbn [fst]; try discriminate.
  intros _. now exists a.
Qed.

Lemma execute_order self w :
  exists j, (j <= Z.to_nat (runs self))%nat /\
    launched (snd (execute H self w)) = launched w ++ seq 0 j /\
    (forall u, fst (execute H self w) = Ok u -> j = Z.to_nat (runs self)).
Proof.
  unfold execute.
  erewrite bind_ok by reflexivity. erewrite bind_ok by reflexivity.
  match goal with
  | |- context [bind (for_each _ _ tt) _ ?w0] => set (w1 := w0)
  end.
  destruct (launching_loop_order self (Z.to_nat (runs self)) 0 w1)
    as (j & Hj & Hl & Hall).
  change (launched w1) with (launched w) in Hl.
  exists j. split; [exact Hj|].
  rewrite launched_bind_quiet.
  - split; [exact Hl|]. intros u Hu.
    apply bind_ok_first in Hu as [a Ha]. eauto.
  - intros _. apply quiet_bind; [|intros; apply quiet_results_processing].
    destruct (mode_prl self); [|apply quiet_ret].
    apply quiet_bind; [apply quiet_print|intros; apply quiet_print].
Qed.

End Records.

(** ** The ways the process ends *)

Lemma no_exit_new_delta us : no_exit (new_delta us).
Proof. unfold new_delta. now destruct (_ && _). Qed.

Lemma no_exit_as_integer_ratio f : no_exit (as_integer_ratio f).
Proof. destruct f as [| |m e]; cbn; auto. now destruct (0 <=? e). Qed.

Lemma no_exit_td_mul_float td f : no_exit (td_mul_float td f).
Proof.
  unfold td_mul_float. pose proof (no_exit_as_integer_ratio f) as Hr.
  destruct (as_integer_ratio f) as [[num den]| |]; cbn; auto.
  apply no_exit_new_delta.
Qed.

Lemma no_exit_td_truediv_float td f : no_exit (td_truediv_float td f).
Proof.
  unfold td_truediv_float. pose proof (no_exit_as_integer_ratio f) as Hr.
  destruct (as_integer_ratio f) as [[num den]| |]; cbn; auto.
  destruct (num =? 0); [exact I|apply no_exit_new_delta].
Qed.

Lemma no_exit_float_of_int n : no_exit (float_of_int n).
Proof.
  unfold float_of_int. destruct (_ <? _); [exact I|].
  cbv zeta. now destruct (_ <=? _).
Qed.

Lemma no_exit_int_of_float f : no_exit (int_of_float f).
Proof. destruct f as [| |m e]; cbn; auto. now destruct (0 <=? e). Qed.

Lemma no_exit_getitem {A} (l : list A) i : no_exit (getitem l i).
Proof.
  unfold getitem. cbv zeta. destruct (_ && _); [|exact I].
  now destruct (l !! _).
Qed.

Lemma no_exit_py_int H v : no_exit (py_int H v).
Proof.
  destruct v; cbn; auto; [apply no_exit_int_of_float|].
  now destruct (int_of_str H s).
Qed.

Lemma no_exit_items v : no_exit (items v).
Proof. now destruct v. Qed.

Lemma no_exit_short_has_arg opt shortopts : no_exit (short_has_arg opt shortopts).
Proof.
  induction shortopts as [|c rest IH]; cbn; [exact I|].
  now destruct (_ && _).
Qed.

Lemma no_exit_do_shorts shortopts next : forall optstring opts,
  no_exit (do_shorts opts optstring shortopts next).
Proof.
  induction optstring as [|opt rest IH]; intros opts; cbn; [exact I|].
  pose proof (no_exit_short_has_arg opt shortopts) as Hs.
  destruct (short_has_arg opt shortopts) as [[|]| |]; auto.
  destruct (String.eqb rest EmptyString); [|exact I].
  now destruct next.
Qed.

Lemma no_exit_long_has_args opt longopts : no_exit (long_has_args opt longopts).
Proof.
  unfold long_has_args.
  destruct (List.filter (String.prefix opt) longopts) as [|u others]; [exact I|].
  destruct (mem opt (u :: others)); [exact I|].
  destruct (mem (String.append opt "=") (u :: others)); [exact I|].
  destruct others; [|exact I]. now destruct (endswith_eq u).
Qed.

Lemma no_exit_do_longs opts opt longopts next :
  no_exit (do_longs opts opt longopts next).
Proof.
  unfold do_longs. destruct (split_eq opt) as [name optarg].
  pose proof (no_exit_long_has_args name longopts) as Hl.
  destruct (long_has_args name longopts) as [[has_arg full]| |]; auto.
  destruct has_arg, optarg, next; exact I.
Qed.

Lemma no_exit_getopt_loop shortopts longopts : forall n args opts,
  (length args <= n)%nat -> no_exit (getopt_loop opts args shortopts longopts).
Proof.
  induction n as [|n IH]; intros args opts Hlen.
  - destruct args; [exact I|cbn in Hlen; lia].
  - destruct args as [|a rest]; [exact I|]. cbn [getopt_loop length] in *.
    destruct (_ && _); [|exact I].
    destruct (String.eqb a "--"); [exact I|].
    set (step := if String.prefix "--" a then _ else _).
    assert (Hs : no_exit step).
    { unfold step. destruct (String.prefix "--" a);
        [apply no_exit_do_longs|apply no_exit_do_shorts]. }
    destruct step as [[opts' used]| |]; auto.
    destruct used.
    + destruct rest as [|b rest']; [exact I|]. apply IH. cbn in Hlen. lia.
    + apply IH. lia.
Qed.

Lemma no_exit_getopt args shortopts longopts :
  no_exit (getopt args shortopts longopts).
Proof. unfold getopt. now apply (no_exit_getopt_loop _ _ (length args)). Qed.

Lemma exits_ret {A} codes (a : A) : exits_within codes (ret a).
Proof. intros w c w'. discriminate. Qed.

Lemma exits_lift {A} codes (r : result A) :
  no_exit r -> exits_within codes (lift r).
Proof. intros Hr w c w'. unfold lift. intros [= -> _]. destruct Hr. Qed.

Lemma exits_raise {A} codes e : exits_within codes (@raise A e).
Proof. intros w c w'. discriminate. Qed.

Lemma exits_exit {A} codes code : In code codes -> exits_within codes (@exit A code).
Proof. intros Hin w c w'. unfold exit, lift. now intros [= <- _]. Qed.

Lemma exits_print codes l : exits_within codes (print l).
Proof. intros w c w'. discriminate. Qed.

Lemma exits_get_timings codes : exits_within codes get_timings.
Proof. intros w c w'. discriminate. Qed.

Lemma exits_put_timings codes ts : exits_within codes (put_timings ts).
Proof. intros w c w'. discriminate. Qed.

Lemma exits_bind {A B} codes (m : M A) (k : A -> M B) :
  exits_within codes m -> (forall a, exits_within codes (k a)) ->
  exits_within codes (bind m k).
Proof.
  intros Hm Hk w c w'. unfold bind. specialize (Hm w).
  destruct (m w) as [[a|e|c1] w1].
  - apply Hk.
  - discriminate.
  - intros [= <- <-]. now apply (Hm c1 w1).
Qed.

Lemma exits_for_each {A S} codes (body : S -> A -> M S) (l : list A) :
  (forall s x, exits_within codes (body s x)) ->
  forall s, exits_within codes (for_each l body s).
Proof.
  intros Hb. induction l as [|x l IH]; intros s; cbn [for_each].
  - apply exits_ret.
  - apply exits_bind; [apply Hb|exact IH].
Qed.

Lemma exits_sleep H codes secs : exits_within codes (sleep H secs).
Proof.
  intros w code w'. unfold sleep.
  destruct (_ || _); [discriminate|].
  destruct (_ <? _); [discriminate|].
  destruct (clock_nanosleep H w secs); discriminate.
Qed.

Ltac exits :=
  repeat first
    [ apply exits_ret | apply exits_raise | apply exits_print
    | apply exits_get_timings | apply exits_put_timings | apply exits_sleep
    | apply exits_exit; cbn; tauto
    | apply exits_lift;
      first [ apply no_exit_py_int | apply no_exit_items | apply no_exit_getopt
            | apply no_exit_getitem | apply no_exit_new_delta
            | apply no_exit_td_mul_float | apply no_exit_td_truediv_float
            | apply no_exit_float_of_int ]
    | apply exits_bind; [|intros]
    | match goal with
      | |- exits_within _ (if ?b then _ else _) => destruct b
      | |- exits_within _ (match ?x with _ => _ end) => destruct x
      | |- exits_within _ (let '(_, _) := ?p in _) => destruct p
      end ].

Section Endings.

Context (H : host).

Lemma exits_apply_option self entry :
  exits_within [0; 2] (apply_option H self entry).
Proof. destruct entry as [opt value]. unfold apply_option. exits. Qed.

Lemma exits_parse_params cmdl_params :
  exits_within [0; 2] (parse_params H cmdl_params).
Proof.
  unfold parse_params. apply exits_bind; [exits|]. intros [opts args].
  apply exits_bind; [unfold no_command; exits|]. intros _.
  apply exits_bind.
  - destruct args; [exits|]. unfold load_file. exits.
  - intros entries. apply exits_for_each. intros; apply exits_apply_option.
Qed.

Lemma exits_init cmdl_params : exits_within [0; 2] (__init__ H cmdl_params).
Proof.
  unfold __init__. apply exits_bind.
  - intros w c w'. unfold except_init.
    pose proof (exits_parse_params cmdl_params w) as Hp.
    destruct (parse_params H cmdl_params w) as [[s|e|c1] w1].
    + discriminate.
    + destruct e; unfold bind, print, exit, lift; try discriminate;
        intros [= <- _]; cbn; tauto.
    + intros [= <- <-]. now apply (Hp c1 w1).
  - intros self. unfold no_command. exits.
Qed.

Lemma exits_run_command self i : exits_within [] (run_command H self i).
Proof.
  unfold run_command. apply exits_bind; [intros w c w'; discriminate|].
  intros _. destruct (subprocess_run H (command self) i) as [[[rc st] fi]|];
    [|apply exits_raise].
  unfold set_slot, dt_sub. exits.
Qed.

Lemma exits_execute self : exits_within [] (execute H self).
Proof.
  unfold execute. apply exits_bind; [exits|]. intros _.
  apply exits_bind; [exits|]. intros _.
  apply exits_bind.
  - apply exits_for_each. intros [] i. unfold iteration_body.
    apply exits_bind; [exits|]. intros _. apply exits_bind; [|intros; exits].
    destruct (mode_prl self).
    + apply exits_bind; [|intros; exits].
      intros w c w'. unfold thread_start.
      destruct (run_command H self i w) as [[[]| |] w1]; discriminate.
    + apply exits_bind; [apply exits_run_command|]. intros _. exits.
  - intros _. apply exits_bind; [exits|]. intros _.
    unfold results_processing, td_add, dt_sub.
    apply exits_bind; [exits|]. intros ts.
    apply exits_bind.
    { apply exits_for_each. intros acc t. unfold accumulate, td_add. exits. }
    intros acc. exits.
Qed.

(** X19.  Whatever the arguments, the files, the children and the clock,
    the exit status of the process is 0, 1 or 2. *)
Theorem exit_status_is_0_1_or_2 argv w :
  fst (main H argv w) = 0 \/ fst (main H argv w) = 1 \/ fst (main H argv w) = 2.
Proof.
  assert (He : exits_within [0; 2]
                 (bind (__init__ H (tail argv)) (execute H))).
  { apply exits_bind; [apply exits_init|]. intros self w0 c w1 Hx.
    destruct (exits_execute self w0 c w1 Hx). }
  unfold main. specialize (He w).
  destruct (bind _ _ w) as [[u|e|c] w1]; cbn [fst]; auto.
  destruct (He c w1 eq_refl) as [<-|[<-|[]]]; auto.
Qed.

End Endings.

(** ** Slots *)

Lemma keeps_ret {A} (a : A) : keeps_slots (ret a).
Proof. intros w. reflexivity. Qed.

Lemma keeps_lift {A} (r : result A) : keeps_slots (lift r).
Proof. intros w. reflexivity. Qed.

Lemma keeps_print l : keeps_slots (print l).
Proof. intros w. reflexivity. Qed.

Lemma keeps_launch i : keeps_slots (launch i).
Proof. intros w. reflexivity. Qed.

Lemma keeps_get_timings : keeps_slots get_timings.
Proof. intros w. reflexivity. Qed.

Lemma keeps_bind {A B} (m : M A) (k : A -> M B) :
  keeps_slots m -> (forall a, keeps_slots (k a)) -> keeps_slots (bind m k).
Proof.
  intros Hm Hk w. unfold bind. specialize (Hm w).
  destruct (m w) as [[a|e|c] w']; cbn [snd] in *; [|assumption..].
  now rewrite Hk.
Qed.

Lemma keeps_for_each {A S} (body : S -> A -> M S) (l : list A) :
  (forall s x, keeps_slots (body s x)) ->
  forall s, keeps_slots (for_each l body s).
Proof.
  intros Hb. induction l as [|x l IH]; intros s; cbn [for_each].
  - apply keeps_ret.
  - apply keeps_bind; [apply Hb|exact IH].
Qed.

Lemma keeps_set_slot i f : keeps_slots (set_slot i f).
Proof.
  intros w. unfold set_slot, bind, get_timings.
  destruct (timings w !! i); [|reflexivity].
  cbn. apply length_insert.
Qed.

Lemma keeps_sleep H secs : keeps_slots (sleep H secs).
Proof.
  intros w. unfold sleep.
  destruct (_ || _); [reflexivity|].
  destruct (_ <? _); [reflexivity|].
  destruct (clock_nanosleep H w secs); reflexivity.
Qed.

Ltac keeps :=
  repeat first
    [ apply keeps_ret | apply keeps_lift | apply keeps_print | apply keeps_launch
    | apply keeps_get_timings | apply keeps_set_slot | apply keeps_sleep
    | apply keeps_bind; [|intros]
    | match goal with
      | |- keeps_slots (if ?b then _ else _) => destruct b
      | |- keeps_slots (match ?x with _ => _ end) => destruct x
      end ].

Lemma writes_bind {A B} i (m : M A) (k : A -> M B) :
  writes_only i m -> (forall a, writes_only i (k a)) -> writes_only i (bind m k).
Proof.
  intros Hm Hk w j Hj. unfold bind. specialize (Hm w j Hj).
  destruct (m w) as [[a|e|c] w']; cbn [snd] in *; [|assumption..].
  now rewrite Hk.
Qed.

Lemma writes_set_slot i f : writes_only i (set_slot i f).
Proof.
  intros w j Hj. unfold set_slot, bind, get_timings.
  destruct (timings w !! i); [|reflexivity].
  cbn. apply list_lookup_insert_ne. congruence.
Qed.

Section Slots.

Context (H : host).

Lemma keeps_run_command self i : keeps_slots (run_command H self i).
Proof.
  unfold run_command. apply keeps_bind; [apply keeps_launch|]. intros _.
  destruct (subprocess_run H (command self) i) as [[[rc st] fi]|];
    [|apply keeps_lift].
  keeps.
Qed.

Lemma keeps_thread_start self i : keeps_slots (thread_start H self i).
Proof.
  intros w. pose proof (keeps_run_command self i w) as Hk. unfold thread_start.
  destruct (run_command H self i w) as [[[]| |] w']; exact Hk.
Qed.

Lemma keeps_execute self : keeps_slots (execute H self).
Proof.
  unfold execute. apply keeps_bind; [keeps|]. intros _.
  apply keeps_bind; [keeps|]. intros _.
  apply keeps_bind.
  - apply keeps_for_each. intros [] i. unfold iteration_body.
    apply keeps_bind; [keeps|]. intros _. apply keeps_bind; [|intros; keeps].
    destruct (mode_prl self).
    + apply keeps_bind; [apply keeps_thread_start|intros; keeps].
    + apply keeps_bind; [apply keeps_run_command|intros; keeps].
  - intros _. apply keeps_bind; [keeps|]. intros _.
    unfold results_processing.
    apply keeps_bind; [keeps|]. intros ts.
    apply keeps_bind.
    { apply keeps_for_each. intros acc t. unfold accumulate. keeps. }
    intros acc. keeps.
Qed.

(** X13.  When [__init__] returns a configuration, the process ends with
    exactly as many records as configured runs, whatever the children and
    the clock do and however the run ends. *)
Theorem one_record_per_run argv w self w1 :
  __init__ H (tail argv) w = (Ok self, w1) ->
  length (timings (snd (main H argv w))) = Z.to_nat (runs self).
Proof.
  intros Hi.
  destruct (init_allocates H _ _ _ _ Hi) as [Halloc _].
  pose proof (keeps_execute self w1) as Hk.
  rewrite Halloc, repeat_length in Hk.
  unfold main. rewrite (bind_ok _ _ _ _ _ Hi).
  destruct (execute H self w1) as [[[]| |] w2]; exact Hk.
Qed.

(** X16.  [run_command] writes no record but the one of its iteration and
    keeps the number of records, whatever the child does. *)
Theorem run_command_writes_its_slot self i w j :
  j <> i ->
  timings (snd (run_command H self i w)) !! j = timings w !! j /\
  length (timings (snd (run_command H self i w))) = length (timings w).
Proof.
  intros Hj. split; [|apply keeps_run_command].
  revert w j Hj. change (writes_only i (run_command H self i)).
  unfold run_command. apply writes_bind; [intros w j _; reflexivity|]. intros _.
  destruct (subprocess_run H (command self) i) as [[[rc st] fi]|];
    [|intros w j _; reflexivity].
  repeat first [ apply writes_set_slot
               | apply writes_bind; [|intros]
               | intros w j _; reflexivity ].
Qed.

End Slots.

Local Open Scope string_scope.

(** The theorem at two runs asked for on the command line. *)
Lemma one_record_per_run_witness :
  length (timings (snd (main Scenario.machine
                          ["sptest.py"; "-c"; "true"; "-n"; "2"] world0)))
  = Z.to_nat 2.
Proof.
  apply (one_record_per_run Scenario.machine
           ["sptest.py"; "-c"; "true"; "-n"; "2"] world0
           (Script false (PStr "true") 2 5)
           (World [] [] (repeat blank_timing 2))).
  reflexivity.
Defined.

(** The theorem at the second of three records. *)
Lemma run_command_writes_its_slot_witness :
  timings (snd (run_command Scenario.machine (Scenario.script 3) 1
                  (Scenario.after_runs Scenario.three_runs))) !! 0%nat
  = timings (Scenario.after_runs Scenario.three_runs) !! 0%nat /\
  length (timings (snd (run_command Scenario.machine (Scenario.script 3) 1
                          (Scenario.after_runs Scenario.three_runs))))
  = length (timings (Scenario.after_runs Scenario.three_runs)).
Proof.
  apply (run_command_writes_its_slot Scenario.machine (Scenario.script 3) 1
           (Scenario.after_runs Scenario.three_runs) 0).
  discriminate.
Defined.

Local Close Scope string_scope.

(** ** Launches *)

Section Launches.

Context (H : host).

(** X14.  Whatever the children and the clock do, the commands the process
    has started when it ends are those of iterations 0, 1, ... up to some
    iteration, once each and in this order: none when [__init__] does not
    return a configuration, never more than the configured number of runs,
    and all of them when the run ends with status 0. *)
Theorem commands_are_launched_in_order argv w :
  exists j,
    launched (snd (main H argv w)) = launched w ++ seq 0 j /\
    ((forall self, fst (__init__ H (tail argv) w) <> Ok self) -> j = 0%nat) /\
    (forall self, fst (__init__ H (tail argv) w) = Ok self ->
     (j <= Z.to_nat (runs self))%nat /\
     (fst (main H argv w) = 0 -> j = Z.to_nat (runs self))).
Proof.
  pose proof (quiet_init H (tail argv) w) as Hq.
  unfold main, bind.
  destruct (__init__ H (tail argv) w) as [[self|e|c] w1]; cbn [fst snd] in *.
  - destruct (execute_order H self w1) as (j & Hj & Hl & Hall).
    pose proof (exits_execute H self w1) as Hx.
    exists j. rewrite Hq in Hl.
    destruct (execute H self w1) as [[[]|e|c] w2]; cbn [fst snd] in *.
    + split; [exact Hl|]. split; [intros Hf; now destruct (Hf self)|].
      intros s [= <-]. split; [exact Hj|]. intros _. now apply (Hall tt).
    + split; [exact Hl|]. split; [intros Hf; now destruct (Hf self)|].
      intros s [= <-]. split; [exact Hj|]. discriminate.
    + destruct (Hx c w2 eq_refl).
  - exists 0%nat. rewrite app_nil_r. split; [exact Hq|].
    split; [reflexivity|discriminate].
  - exists 0%nat. rewrite app_nil_r. split; [exact Hq|].
    split; [reflexivity|discriminate].
Qed.

Lemma execute_launched self w :
  launched (snd (execute H self w))
  = launched
      (snd (for_each (seq 0 (Z.to_nat (runs self))) (iteration_body H self) tt
              (World (stdout w ++ [PrExecuting (command self) (runs self) (pause self)]
                        ++ [if mode_prl self then PrParallelMode else PrSequentialMode])
                     (launched w) (timings w)))).
Proof.
  unfold execute.
  erewrite bind_ok by reflexivity. erewrite bind_ok by reflexivity.
  cbn [stdout launched timings]. rewrite <- app_assoc.
  apply launched_bind_quiet.
  intros _. apply quiet_bind; [|intros; apply quiet_results_processing].
  destruct (mode_prl self); [|apply quiet_ret].
  apply quiet_bind; [apply quiet_print|intros; apply quiet_print].
Qed.

Lemma parallel_loop_ends self m : forall k w,
  mode_prl self = true -> 0 <= pause self -> pause_accepted H (pause self) ->
  fst (for_each (seq k m) (iteration_body H self) tt w) = Ok tt.
Proof.
  induction m as [|m IH]; intros k w Hm Hp0 Hp; [reflexivity|].
  cbn [seq for_each]. unfold bind at 1.
  assert (Hb : exists w', iteration_body H self tt k w = (Ok tt, w')).
  { unfold iteration_body. rewrite Hm.
    set (w0 := World (stdout w ++ [PrStarting (Z.of_nat k + 1)]) (launched w)
                     (timings w)).
    rewrite (bind_ok (print _) _ w tt w0) by reflexivity.
    destruct (thread_start_launches H self k w0) as [Hok _].
    erewrite bind_ok; [|erewrite bind_ok; [reflexivity|exact Hok]].
    destruct (_ <? _); [|eexists; reflexivity].
    rewrite sleep_ok by assumption. eexists; reflexivity. }
  destruct Hb as [w' ->]. now apply IH.
Qed.

(** X18.  In parallel mode, when the pause is one that [time.sleep]
    converts and that the system call accepts whenever the script pauses,
    the command of every configured run is started, once and in order,
    whatever the children do, a child that cannot be started included. *)
Theorem parallel_mode_launches_every_run argv w self w1 :
  __init__ H (tail argv) w = (Ok self, w1) ->
  mode_prl self = true ->
  pause_accepted H (pause self) ->
  launched (snd (main H argv w))
  = launched w ++ seq 0 (Z.to_nat (runs self)).
Proof.
  intros Hi Hm Hp.
  destruct (init_postconditions H _ _ _ _ Hi)
    as (_ & Hp0 & _ & _ & Hl1 & _).
  assert (Hex : launched (snd (execute H self w1))
                = launched w ++ seq 0 (Z.to_nat (runs self))).
  { rewrite execute_launched.
    match goal with |- context [for_each _ _ tt ?w0] => set (w2 := w0) end.
    destruct (launching_loop_order H self (Z.to_nat (runs self)) 0 w2)
      as (j & _ & Hl & Hall).
    rewrite Hl, (Hall tt) by (now apply parallel_loop_ends).
    now rewrite <- Hl1. }
  unfold main. rewrite (bind_ok _ _ _ _ _ Hi).
  destruct (execute H self w1) as [[[]| |] w2]; exact Hex.
Qed.

(** X17.  In sequential mode, let the children of the iterations before
    [k] complete and, when there is one, let the pause after each of them be
    one that [time.sleep] converts and that the system call accepts.  If
    child [k] cannot be started, the process ends with status 1: the
    commands of the iterations before [k] and its own have been started,
    none of the later ones. *)
Theorem sequential_run_stops_at_failed_start argv w self w1 k :
  __init__ H (tail argv) w = (Ok self, w1) ->
  mode_prl self = false ->
  (k < Z.to_nat (runs self))%nat ->
  children_complete H (command self) 0 k ->
  ((0 < k)%nat -> pause_accepted H (pause self)) ->
  subprocess_run H (command self) k = None ->
  fst (main H argv w) = 1 /\
  launched (snd (main H argv w)) = launched w ++ seq 0 (S k).
Proof.
  intros Hi Hm Hk Hch Hp Hnone.
  destruct (init_postconditions H _ _ _ _ Hi)
    as (_ & Hp0 & _ & _ & Hl1 & Ht1).
  assert (Hex : exists w3,
             execute H self w1 = (Raise HostError, w3) /\
             launched w3 = launched w ++ seq 0 (S k)).
  { unfold execute.
    erewrite bind_ok by reflexivity. erewrite bind_ok by reflexivity.
    match goal with |- context [for_each _ _ tt] =>
      match goal with |- exists _, bind _ _ ?w0 = _ /\ _ => set (w2 := w0) end
    end.
    replace (Z.to_nat (runs self))
      with (k + S (Z.to_nat (runs self) - S k))%nat by lia.
    rewrite seq_app. cbn [seq Nat.add].
    assert (Hbefore : exists out ts,
               for_each (seq 0 k) (iteration_body H self) tt w2
               = (Ok tt, World (stdout w2 ++ out) (launched w2 ++ seq 0 k) ts)).
    { destruct (Nat.eq_dec k 0%nat) as [->|Hpos].
      - exists [], (timings w2). cbn [seq for_each]. unfold ret.
        now rewrite !app_nil_r.
      - destruct (launching_loop H self k 0 w2 Hch) as (out & ts & Hloop & _).
        + cbn [timings w2]. rewrite Ht1, repeat_length. lia.
        + exact Hp0.
        + apply Hp. lia.
        + now exists out, ts. }
    destruct Hbefore as (out & ts & Hloop).
    cbn [stdout launched timings w2] in Hloop.
    unfold bind at 1. rewrite for_each_app. unfold bind at 1. rewrite Hloop.
    cbn [for_each]. unfold bind at 1.
    unfold iteration_body at 1. rewrite Hm.
    unfold bind, print, run_command, launch. cbn [stdout launched timings].
    rewrite Hnone. unfold raise, lift. cbn [stdout launched timings].
    eexists. split; [reflexivity|]. cbn [launched].
    change (0%nat :: seq 1 k) with (seq 0 (S k)).
    rewrite Hl1, seq_S, <- app_assoc. reflexivity. }
  destruct Hex as (w3 & Hex & Hl3).
  unfold main. rewrite (bind_ok _ _ _ _ _ Hi), Hex. cbn [fst snd print launched].
  split; [reflexivity|exact Hl3].
Qed.

(** X15.  When every child can be started and is timed by a clock within
    the calendar, and the pause is one that [time.sleep] converts and that
    the system call accepts whenever the script pauses, the process ends
    with status 0 whatever the exit statuses of the children: every
    iteration has been started once, in order, and the record of iteration
    [i] holds the exit status and the clock readings of child [i]. *)
Theorem child_failures_do_not_abort argv w self w1 ts :
  __init__ H (tail argv) w = (Ok self, w1) ->
  Forall2 (fun i t => child_record H (command self) i = Some t)
          (seq 0 (Z.to_nat (runs self))) ts ->
  completed self ts ->
  pause_accepted H (pause self) ->
  fst (main H argv w) = 0 /\
  timings (snd (main H argv w)) = ts /\
  launched (snd (main H argv w)) = launched w ++ seq 0 (Z.to_nat (runs self)).
Proof.
  intros Hi Hrec Hc Hp.
  destruct (init_postconditions H _ _ _ _ Hi) as (_ & Hp0 & _).
  exact (main_completes H argv w self w1 ts Hi Hrec Hc Hp0 Hp).
Qed.

(** X20.  With a single run no pause is made: when the child can be started
    the process ends with status 0 whatever the configured pause, one that
    [time.sleep] would refuse included. *)
Theorem single_run_never_pauses argv w self w1 t :
  __init__ H (tail argv) w = (Ok self, w1) ->
  runs self = 1 ->
  child_record H (command self) 0 = Some t ->
  completed_run t ->
  fst (main H argv w) = 0 /\
  timings (snd (main H argv w)) = [t] /\
  launched (snd (main H argv w)) = launched w ++ [0%nat].
Proof.
  intros Hi Hone Hc Ht.
  destruct (init_postconditions H _ _ _ _ Hi)
    as (_ & _ & _ & _ & Hl1 & Ht1).
  rewrite Hone in Ht1. change (Z.to_nat 1) with 1%nat in Ht1. cbn [repeat] in Ht1.
  assert (Hcomp : completed self [t]).
  { constructor.
    - now rewrite Hone.
    - rewrite Hone. split; [lia|reflexivity].
    - now constructor.
    - pose proof (completed_run_time t Ht) as Hb. cbn. calendar. lia. }
  assert (Hex : exists out,
             execute H self w1
             = (Ok tt, World (stdout w1 ++ out) (launched w1 ++ [0%nat]) [t])).
  { unfold execute.
    erewrite bind_ok by reflexivity. erewrite bind_ok by reflexivity.
    rewrite Hone. change (Z.to_nat 1) with 1%nat. cbn [seq for_each].
    match goal with |- exists _, bind _ _ ?w0 = _ => set (w2 := w0) end.
    assert (Hbody : exists out1,
               iteration_body H self tt 0 w2
               = (Ok tt, World (stdout w2 ++ out1) (launched w2 ++ [0%nat]) [t])).
    { unfold iteration_body. rewrite Hone.
      set (w3 := World (stdout w2 ++ [PrStarting (Z.of_nat 0 + 1)]) (launched w2)
                       (timings w2)).
      rewrite (bind_ok (print _) _ w2 tt w3) by reflexivity.
      assert (Hslots : timings w3 = [blank_timing])
        by (unfold w3, w2; cbn [timings]; exact Ht1).
      assert (Hlen : (0 < length (timings w3))%nat)
        by (rewrite Hslots; cbn; lia).
      pose proof (run_command_completes H self 0 w3 t Hc Ht Hlen) as Hrun.
      rewrite Hslots in Hrun. change (<[0%nat:=t]> [blank_timing]) with [t] in Hrun.
      change (stdout w3) with (stdout w2 ++ [PrStarting (Z.of_nat 0 + 1)]) in Hrun.
      change (launched w3) with (launched w2) in Hrun.
      destruct (mode_prl self).
      - exists [PrStarting (Z.of_nat 0 + 1); PrStarted].
        erewrite bind_ok.
        2:{ erewrite bind_ok; [reflexivity|]. unfold thread_start.
            now rewrite Hrun. }
        cbn. unfold ret. now rewrite <- !app_assoc.
      - exists [PrStarting (Z.of_nat 0 + 1); PrDoneIn (time t)].
        erewrite bind_ok.
        2:{ erewrite bind_ok; [|exact Hrun].
            erewrite bind_ok; [|reflexivity]. reflexivity. }
        cbn. unfold ret. now rewrite <- !app_assoc. }
    destruct Hbody as (out1 & Hbody).
    rewrite (bind_ok _ _ _ _ _ (bind_ok _ _ _ _ _ Hbody)) by reflexivity.
    match goal with |- exists _, bind _ _ ?w0 = _ => set (w4 := w0) end.
    set (tail_out := if mode_prl self then [PrWaiting; PrDone] else []).
    set (w5 := World (stdout w4 ++ tail_out) (launched w4) (timings w4)).
    erewrite (bind_ok _ _ w4 tt w5).
    2:{ unfold w5, tail_out. destruct (mode_prl self); unfold bind, print, ret;
        cbn [stdout launched timings]; rewrite <- ?app_assoc; cbn [app];
        rewrite ?app_nil_r; reflexivity. }
    destruct (results_processing_completed self w5 Hcomp)
      as (first & last & fastest & slowest & lo & hi & _ & _ & _ & _ & _ & _ & Hrun).
    rewrite Hrun. cbn [stdout launched timings w5 w4 w2].
    eexists. rewrite <- !app_assoc. reflexivity. }
  destruct Hex as (out & Hex).
  unfold main. rewrite (bind_ok _ _ _ _ _ Hi), Hex. cbn [fst snd timings launched].
  now rewrite Hl1.
Qed.

End Launches.

(** ** The properties at concrete runs *)

Local Open Scope string_scope.

(** Three children, the second of which ends with status 3. *)
Lemma child_failures_do_not_abort_witness :
  fst (main (Machines.bare Machines.failing_children)
         ["sptest.py"; "-c"; "false"; "-n"; "3"] world0) = 0 /\
  timings (snd (main (Machines.bare Machines.failing_children)
                  ["sptest.py"; "-c"; "false"; "-n"; "3"] world0))
  = [Timing 0 0 1000000 1000000; Timing 3 2000000 3000000 1000000;
     Timing 0 4000000 5000000 1000000] /\
  launched (snd (main (Machines.bare Machines.failing_children)
                   ["sptest.py"; "-c"; "false"; "-n"; "3"] world0))
  = (launched world0 ++ seq 0 (Z.to_nat 3))%list.
Proof.
  apply (child_failures_do_not_abort (Machines.bare Machines.failing_children)
           ["sptest.py"; "-c"; "false"; "-n"; "3"] world0
           (Script false (PStr "false") 3 5)
           (World [] [] (repeat blank_timing 3))).
  - reflexivity.
  - repeat constructor.
  - completed_scenario.
  - split; [vm_compute; discriminate|intros w; reflexivity].
Defined.

(** Three sequential runs, the second of which cannot be started. *)
Lemma sequential_run_stops_at_failed_start_witness :
  fst (main (Machines.bare Machines.broken_children)
         ["sptest.py"; "-c"; "true"; "-n"; "3"] world0) = 1 /\
  launched (snd (main (Machines.bare Machines.broken_children)
                   ["sptest.py"; "-c"; "true"; "-n"; "3"] world0))
  = (launched world0 ++ seq 0 2)%list.
Proof.
  apply (sequential_run_stops_at_failed_start
           (Machines.bare Machines.broken_children)
           ["sptest.py"; "-c"; "true"; "-n"; "3"] world0
           (Script false (PStr "true") 3 5)
           (World [] [] (repeat blank_timing 3)) 1).
  - reflexivity.
  - reflexivity.
  - cbn. lia.
  - intros i Hi. assert (i = 0%nat) as -> by lia.
    exists (Timing 0 0 1000000 1000000). split; [reflexivity|].
    constructor; cbn; calendar; lia.
  - intros _. split; [vm_compute; discriminate|intros w; reflexivity].
  - reflexivity.
Defined.

(** The same three runs in parallel mode. *)
Lemma parallel_mode_launches_every_run_witness :
  launched (snd (main (Machines.bare Machines.broken_children)
                   ["sptest.py"; "-c"; "true"; "-n"; "3"; "-p"] world0))
  = (launched world0 ++ seq 0 (Z.to_nat 3))%list.
Proof.
  apply (parallel_mode_launches_every_run
           (Machines.bare Machines.broken_children)
           ["sptest.py"; "-c"; "true"; "-n"; "3"; "-p"] world0
           (Script true (PStr "true") 3 5)
           (World [] [] (repeat blank_timing 3))).
  - reflexivity.
  - reflexivity.
  - split; [vm_compute; discriminate|intros w; reflexivity].
Defined.

(** One run with a pause of 99999999999 seconds. *)
Lemma single_run_never_pauses_witness :
  fst (main Scenario.machine
         ["sptest.py"; "-c"; "true"; "-n"; "1"; "-w"; "99999999999"] world0) = 0 /\
  timings (snd (main Scenario.machine
                  ["sptest.py"; "-c"; "true"; "-n"; "1"; "-w"; "99999999999"]
                  world0))
  = [Timing 0 0 1000000 1000000] /\
  launched (snd (main Scenario.machine
                   ["sptest.py"; "-c"; "true"; "-n"; "1"; "-w"; "99999999999"]
                   world0))
  = (launched world0 ++ [0%nat])%list.
Proof.
  apply (single_run_never_pauses Scenario.machine
           ["sptest.py"; "-c"; "true"; "-n"; "1"; "-w"; "99999999999"] world0
           (Script false (PStr "true") 1 99999999999)
           (World [] [] (repeat blank_timing 1))
           (Timing 0 0 1000000 1000000)).
  - reflexivity.
  - reflexivity.
  - reflexivity.
  - constructor; cbn; calendar; lia.
Defined.

(** Two runs with the same pause, which [time.sleep] does not convert: the
    second one is never started. *)
Example long_pause_stops_second_run :
  main Scenario.machine
    ["sptest.py"; "-c"; "true"; "-n"; "2"; "-w"; "99999999999"] world0
  = (1, World [PrExecuting (PStr "true") 2 99999999999; PrSequentialMode;
               PrStarting 1; PrDoneIn 1000000; PrUnhandled OverflowError]
              [0%nat]
              [Timing 0 0 1000000 1000000; blank_timing]).
Proof. reflexivity. Qed.

(** Two runs with the longest pause [time.sleep] converts: the deadline is
    past what the clock of the machine can hold, the system call fails and
    the second run is never started. *)
Example refused_pause_stops_second_run :
  main Scenario.machine
    ["sptest.py"; "-c"; "true"; "-n"; "2"; "-w"; "9223372036"] world0
  = (1, World [PrExecuting (PStr "true") 2 9223372036; PrSequentialMode;
               PrStarting 1; PrDoneIn 1000000; PrUnhandled OSError]
              [0%nat]
              [Timing 0 0 1000000 1000000; blank_timing]).
Proof. reflexivity. Qed.

(** The command line [--]. *)
Lemma exit_no_arguments_witness :
  main Scenario.machine ["sptest.py"; "--"] world0
  = (2, World [PrNoCommand] [] []).
Proof.
  apply (exit_no_arguments Scenario.machine ["sptest.py"; "--"] world0).
  reflexivity.
Defined.

(** The command line [-c true -x]. *)
Lemma exit_option_syntax_witness :
  main Scenario.machine ["sptest.py"; "-c"; "true"; "-x"] world0
  = (2, World [PrGetoptError "option -x not recognized"] [] []).
Proof.
  apply (exit_option_syntax Scenario.machine
           ["sptest.py"; "-c"; "true"; "-x"] "option -x not recognized" "x" world0).
  reflexivity.
Defined.

(** The command line [-h nofile.json]. *)
Lemma exit_file_not_found_witness :
  main Scenario.machine ["sptest.py"; "-h"; "nofile.json"] world0
  = (2, World [PrFileNotFound "nofile.json"] [] []).
Proof.
  apply (exit_file_not_found Scenario.machine
           ["sptest.py"; "-h"; "nofile.json"] [("-h", "")] "nofile.json" [] world0);
    reflexivity.
Defined.

(** A file that cannot be read. *)
Lemma exit_file_unreadable_witness :
  main Machines.damaged ["sptest.py"; "locked.json"] world0
  = (2, World [PrReadError "locked.json"] [] []).
Proof.
  apply (exit_file_unreadable Machines.damaged
           ["sptest.py"; "locked.json"] [] "locked.json" [] world0);
    reflexivity.
Defined.

(** A file that is not JSON. *)
Lemma exit_file_undecodable_witness :
  main Machines.damaged ["sptest.py"; "text.json"] world0
  = (2, World [PrJsonError "text.json" "not json"] [] []).
Proof.
  apply (exit_file_undecodable Machines.damaged
           ["sptest.py"; "text.json"] [] "text.json" [] "not json" world0);
    reflexivity.
Defined.

(** The command line [-n 3]. *)
Lemma exit_command_missing_witness :
  main Scenario.machine ["sptest.py"; "-n"; "3"] world0
  = (2, World [PrNoCommand] [] []).
Proof.
  apply (exit_command_missing Scenario.machine ["sptest.py"; "-n"; "3"]
           [("-n", PStr "3")] (Script false (PStr "") 3 5) world0).
  - exists [("-n", "3")], []. split; [reflexivity|].
    split; [discriminate|reflexivity].
  - reflexivity.
  - reflexivity.
Defined.

(** The command line [-n 0]. *)
Lemma main_without_script_witness :
  launched (snd (main Scenario.machine ["sptest.py"; "-n"; "0"] world0))
  = launched world0.
Proof.
  apply (main_without_script Scenario.machine ["sptest.py"; "-n"; "0"] world0).
  intros self. discriminate.
Defined.
